(** * factory-go: the builder pipeline of [factory/factory.go]

    A shallow embedding of the generic [Factory[T]] and of the relationship
    helpers built on it, followed by the properties of the pipeline.

    How the Go code is read:

    - A [*Factory[T]] is a pointer to a struct.  The only field written once
      configuration is over is [seq], the atomic counter, so the record below
      keeps the configuration fields as they are and holds in [seq] the
      address of the counter in the store.  Two records with the same address
      are the same Go instance; [copy := *f] allocates a new address holding
      the value read from the old one.
    - Every function value a caller hands to the library ([makeFn], traits,
      hooks, [persist], [tapFn], link functions) is a Go closure and may do
      anything: it is a computation over the whole store, which carries the
      counters and a caller state [U] (a database, call counters, ...).
    - [func(t *T)] is a function from the pointee before the call to the
      pointee after it.  A [*T] result is represented by its pointee; the
      related entity handed to a link function is read, not written.
    - [context.Context] is passed through untouched and is left to the
      closures' environment.  [int] is 64 bits wide.
    - Calls are sequential; the interleaving of goroutines is not modelled. *)

From stdpp Require Import base numbers list strings gmap pretty.

(** ** 64-bit signed integers *)

Module Int64.

Definition modulus : Z := 2 ^ 64.
Definition min_signed : Z := - 2 ^ 63.
Definition max_signed : Z := 2 ^ 63 - 1.

(** Two's complement wrap-around of a mathematical integer. *)
Definition wrap (z : Z) : Z := ((z + 2 ^ 63) `mod` modulus - 2 ^ 63)%Z.

Definition in_range (z : Z) : Prop := (min_signed ≤ z ≤ max_signed)%Z.

End Int64.

(** ** The store and the monad of Go calls *)

Section Engine.

(** [U]: the state the caller's closures work on.  [Err]: Go [error] values. *)
Context {U Err : Type}.

(** The address of a counter cell. *)
Definition loc := nat.

Record World := mkWorld {
  cells : list Z;   (* the [seq] fields of the allocated factories *)
  user : U;
}.

(** A Go call either returns or panics. *)
Inductive outcome (A : Type) : Type :=
| Done (a : A)
| Panic (msg : string).
Global Arguments Done {A} a.
Global Arguments Panic {A} msg.

Definition M (A : Type) : Type := World -> outcome A * World.

Definition ret {A} (a : A) : M A := fun w => (Done a, w).

Definition bind {A B} (m : M A) (k : A -> M B) : M B :=
  fun w =>
    match m w with
    | (Done a, w') => k a w'
    | (Panic msg, w') => (Panic msg, w')
    end.

Definition panic {A} (msg : string) : M A := fun w => (Panic msg, w).

Notation "'let*' x ':=' m 'in' k" := (bind m (fun x => k))
  (at level 10, x pattern, m at level 100, k at level 200).

Definition nil_deref : string :=
  "runtime error: invalid memory address or nil pointer dereference".

(** [*p] for a counter cell. *)
Definition load (l : loc) : M Z :=
  fun w =>
    match cells w !! l with
    | Some v => (Done v, w)
    | None => (Panic nil_deref, w)
    end.

(** A new struct: a fresh cell initialised to [v]. *)
Definition alloc (v : Z) : M loc :=
  fun w => (Done (length (cells w)), mkWorld (cells w ++ [v]) (user w)).

(** [atomic.AddInt64(p, delta)]: adds with wrap-around, returns the new value. *)
Definition atomic_AddInt64 (l : loc) (delta : Z) : M Z :=
  fun w =>
    match cells w !! l with
    | Some v =>
        let v' := Int64.wrap (v + delta) in
        (Done v', mkWorld (<[l := v']> (cells w)) (user w))
    | None => (Panic nil_deref, w)
    end.

(** [atomic.StoreInt64(p, v)]. *)
Definition atomic_StoreInt64 (l : loc) (v : Z) : M unit :=
  fun w =>
    match cells w !! l with
    | Some _ => (Done tt, mkWorld (<[l := v]> (cells w)) (user w))
    | None => (Panic nil_deref, w)
    end.

(** ** The factory *)

(** [type Trait[T any] func(t *T)] *)
Definition Trait (T : Type) : Type := T -> M T.

(** [type BeforeCreate[T any] func(ctx, t *T) error]: the pointee after the
    call and the error returned ([None] is [nil]). *)
Definition BeforeCreate (T : Type) : Type := T -> M (T * option Err).

(** [type AfterCreate[T any] func(ctx, t *T) error] *)
Definition AfterCreate (T : Type) : Type := T -> M (T * option Err).

(** [type PersistFn[T any] func(ctx, t *T) (out *T, err error)]: the pointee of the
    returned pointer and the error. *)
Definition PersistFn (T : Type) : Type := T -> M (T * option Err).

Record Factory (T : Type) : Type := mkFactory {
  makeFn : Z -> M T;
  defaults : list (Trait T);
  rawDefaults : list (Trait T);
  traits : list (Trait T);
  sequences : list (Trait T);
  states : gmap string (Trait T);
  persist : option (PersistFn T);
  before : list (BeforeCreate T);
  after : list (AfterCreate T);
  tapFn : option (T -> M unit);
  seq : loc;
  count : Z;
}.
Global Arguments mkFactory {T}.
Global Arguments makeFn {T}.
Global Arguments defaults {T}.
Global Arguments rawDefaults {T}.
Global Arguments traits {T}.
Global Arguments sequences {T}.
Global Arguments states {T}.
Global Arguments persist {T}.
Global Arguments before {T}.
Global Arguments after {T}.
Global Arguments tapFn {T}.
Global Arguments seq {T}.
Global Arguments count {T}.

(** A Go pair [(out *T, err error)] of which exactly one component is non-nil, as
    [Create] returns it: [(out, nil)] or [(nil, err)]. *)
Inductive result (T : Type) : Type :=
| Ok (out : T)
| Error (e : Err).
Global Arguments Ok {T} out.
Global Arguments Error {T} e.

Section Methods.

Context {T : Type}.
Implicit Types (f : Factory T) (ts : list (Trait T)) (t : T).

(** [New]: a factory with a zero counter and an empty state registry. *)
Definition New (mk : Z -> M T) : M (Factory T) :=
  let* l := alloc 0 in
  ret (mkFactory mk [] [] [] [] ∅ None [] [] None l 0).

Definition WithDefaults f ts : Factory T :=
  mkFactory (makeFn f) (defaults f ++ ts) (rawDefaults f) (traits f)
    (sequences f) (states f) (persist f) (before f) (after f) (tapFn f)
    (seq f) (count f).

Definition WithRawDefaults f ts : Factory T :=
  mkFactory (makeFn f) (defaults f) (rawDefaults f ++ ts) (traits f)
    (sequences f) (states f) (persist f) (before f) (after f) (tapFn f)
    (seq f) (count f).

Definition WithTraits f ts : Factory T :=
  mkFactory (makeFn f) (defaults f) (rawDefaults f) (traits f ++ ts)
    (sequences f) (states f) (persist f) (before f) (after f) (tapFn f)
    (seq f) (count f).

Definition Sequence f ts : Factory T :=
  mkFactory (makeFn f) (defaults f) (rawDefaults f) (traits f)
    ts (states f) (persist f) (before f) (after f) (tapFn f)
    (seq f) (count f).

Definition DefineState f (name : string) (trait : Trait T) : Factory T :=
  mkFactory (makeFn f) (defaults f) (rawDefaults f) (traits f)
    (sequences f) (<[name := trait]> (states f)) (persist f) (before f)
    (after f) (tapFn f) (seq f) (count f).

(** [State]: [copy := *f] gives the copy a counter cell of its own, holding
    what the receiver's counter holds at that moment. *)
Definition State f (name : string) : M (Factory T) :=
  match states f !! name with
  | None => panic ("factory: unknown state '" +:+ name +:+ "'")
  | Some trait =>
      let* v := load (seq f) in
      let* l := alloc v in
      ret (mkFactory (makeFn f) (defaults f) (rawDefaults f)
             (([] ++ traits f) ++ [trait])
             (sequences f) (states f) (persist f) (before f) (after f)
             (tapFn f) l (count f))
  end.

Definition WithPersist f (p : PersistFn T) : Factory T :=
  mkFactory (makeFn f) (defaults f) (rawDefaults f) (traits f)
    (sequences f) (states f) (Some p) (before f) (after f) (tapFn f)
    (seq f) (count f).

(** The methods [BeforeCreate] and [AfterCreate]; Go lets them share their
    names with the hook types, here they are prefixed. *)
Definition AddBeforeCreate f (h : BeforeCreate T) : Factory T :=
  mkFactory (makeFn f) (defaults f) (rawDefaults f) (traits f)
    (sequences f) (states f) (persist f) (before f ++ [h]) (after f)
    (tapFn f) (seq f) (count f).

Definition AddAfterCreate f (h : AfterCreate T) : Factory T :=
  mkFactory (makeFn f) (defaults f) (rawDefaults f) (traits f)
    (sequences f) (states f) (persist f) (before f) (after f ++ [h])
    (tapFn f) (seq f) (count f).

Definition Tap f (fn : T -> M unit) : Factory T :=
  mkFactory (makeFn f) (defaults f) (rawDefaults f) (traits f)
    (sequences f) (states f) (persist f) (before f) (after f) (Some fn)
    (seq f) (count f).

Definition When f (condition : bool) ts : Factory T :=
  if condition then WithTraits f ts else f.

Definition Unless f (condition : bool) ts : Factory T :=
  if negb condition then WithTraits f ts else f.

(** [Clone]: a fresh struct whose counter is the literal [0]. *)
Definition Clone f : M (Factory T) :=
  let* l := alloc 0 in
  ret (mkFactory (makeFn f) ([] ++ defaults f) ([] ++ rawDefaults f)
         ([] ++ traits f) ([] ++ sequences f) (states f) (persist f)
         ([] ++ before f) ([] ++ after f) (tapFn f) l (count f)).

Definition nextSeq f : M Z := atomic_AddInt64 (seq f) 1.

Definition ResetSequence f : M (Factory T) :=
  let* _ := atomic_StoreInt64 (seq f) 0 in
  ret f.

(** [for _, tr := range trs { tr(&t) }] *)
Fixpoint applyTraits ts t : M T :=
  match ts with
  | [] => ret t
  | tr :: ts' => let* t' := tr t in applyTraits ts' t'
  end.

(** The text of the runtime's bounds error for [s[idx]]: a negative index is
    reported alone, an index past the end with the length. *)
Definition index_out_of_range (idx : Z) (len : nat) : string :=
  if decide (idx < 0)%Z
  then "runtime error: index out of range [" +:+ pretty idx +:+ "]"
  else "runtime error: index out of range [" +:+ pretty idx +:+
       "] with length " +:+ pretty len.

(** [s[idx]] for a Go slice and an [int] index. *)
Definition index {A} (s : list A) (idx : Z) : M A :=
  if decide (idx < 0)%Z then panic (index_out_of_range idx (length s))
  else match s !! Z.to_nat idx with
       | Some a => ret a
       | None => panic (index_out_of_range idx (length s))
       end.

(** The cyclic stage shared, statement for statement, by [Make] and [Raw]:
    [if len(f.sequences) > 0 { idx := int((seq - 1) % int64(len)); ... }].
    Go's [%] truncates towards zero. *)
Definition applySequence f (seq : Z) t : M T :=
  if decide (0 < length (sequences f)) then
    let idx := Z.rem (Int64.wrap (seq - 1)) (Z.of_nat (length (sequences f))) in
    let* tr := index (sequences f) idx in
    tr t
  else ret t.

(** [if f.tapFn != nil { f.tapFn(t) }] *)
Definition callTap f t : M unit :=
  match tapFn f with
  | Some fn => fn t
  | None => ret tt
  end.

Definition Make f ts : M T :=
  let* seq := nextSeq f in
  let* t := makeFn f seq in
  let* t := applyTraits (defaults f) t in
  let* t := applyTraits (traits f) t in
  let* t := applySequence f seq t in
  let* t := applyTraits ts t in
  let* _ := callTap f t in
  ret t.

Definition Raw f ts : M T :=
  let* seq := nextSeq f in
  let* t := makeFn f seq in
  let* t := applyTraits (defaults f) t in
  let* t := applyTraits (rawDefaults f) t in
  let* t := applyTraits (traits f) t in
  let* t := applySequence f seq t in
  let* t := applyTraits ts t in
  let* _ := callTap f t in
  ret t.

(** [for _, h := range hooks { if err := h(ctx, p); err != nil { return nil, err } }]:
    [Error e] when a hook stopped the loop, [Ok t] with the pointee left by
    the last hook otherwise. *)
Fixpoint runHooks (hooks : list (T -> M (T * option Err))) t : M (result T) :=
  match hooks with
  | [] => ret (Ok t)
  | h :: hooks' =>
      let* r := h t in
      match r with
      | (_, Some e) => ret (Error e)
      | (t', None) => runHooks hooks' t'
      end
  end.

Definition Create f ts : M (result T) :=
  match persist f with
  | None => panic "factory: Create called without persist function; use WithPersist"
  | Some p =>
      let* obj := Make f ts in
      let* b := runHooks (before f) obj in
      match b with
      | Error e => ret (Error e)
      | Ok obj =>
          let* r := p obj in
          match r with
          | (_, Some e) => ret (Error e)
          | (out, None) =>
              let* a := runHooks (after f) out in
              match a with
              | Error e => ret (Error e)
              | Ok out => ret (Ok out)
              end
          end
      end
  end.

(** [for i := 0; i < count; i++ { items[i] = m() }] *)
Fixpoint fill (n : nat) (m : M T) : M (list T) :=
  match n with
  | O => ret []
  | S n' => let* x := m in let* xs := fill n' m in ret (x :: xs)
  end.

Definition makeslice_panic : string := "runtime error: makeslice: len out of range".

Definition MakeMany f (count : Z) ts : M (list T) :=
  if decide (count < 0)%Z then panic makeslice_panic
  else fill (Z.to_nat count) (Make f ts).

Definition RawMany f (count : Z) ts : M (list T) :=
  if decide (count < 0)%Z then panic makeslice_panic
  else fill (Z.to_nat count) (Raw f ts).

(** The loop of [CreateMany] and of [HasFactory.Create]:
    [for i := 0; i < count; i++ { item, err := step(); if err != nil
    { return items, err }; items = append(items, item) }; return items, nil]. *)
Fixpoint collect (n : nat) (step : M (result T)) (items : list T)
  : M (list T * option Err) :=
  match n with
  | O => ret (items, None)
  | S n' =>
      let* r := step in
      match r with
      | Error e => ret (items, Some e)
      | Ok item => collect n' step (items ++ [item])
      end
  end.

Definition makeslice_cap_panic : string := "runtime error: makeslice: cap out of range".

Definition CreateMany f (count : Z) ts : M (list T * option Err) :=
  match persist f with
  | None => panic "factory: CreateMany called without persist function; use WithPersist"
  | Some _ =>
      if decide (count < 0)%Z then panic makeslice_cap_panic
      else collect (Z.to_nat count) (Create f ts) []
  end.

End Methods.

(** ** Relationship helpers *)

Section Relationships.

Context {T R : Type}.

(** [For]: the copy gets one more default, which makes a related value from
    [relatedFactory] and hands it to [linkFn]. *)
Definition For (f : Factory T) (relatedFactory : Factory R)
    (linkFn : T -> R -> M T) : M (Factory T) :=
  let* v := load (seq f) in
  let* l := alloc v in
  ret (mkFactory (makeFn f)
         (([] ++ defaults f) ++
            [fun t => let* related := Make relatedFactory [] in linkFn t related])
         (rawDefaults f) ([] ++ traits f) (sequences f) (states f)
         (persist f) (before f) (after f) (tapFn f) l (count f)).

(** [ForModel]: the copy gets one more global trait, which links to the one
    existing [related] value. *)
Definition ForModel (f : Factory T) (related : R)
    (linkFn : T -> R -> M T) : M (Factory T) :=
  let* v := load (seq f) in
  let* l := alloc v in
  ret (mkFactory (makeFn f) (defaults f) (rawDefaults f)
         (([] ++ traits f) ++ [fun t => linkFn t related])
         (sequences f) (states f) (persist f) (before f) (after f)
         (tapFn f) l (count f)).

Definition Recycle (f : Factory T) (related : R)
    (linkFn : T -> R -> M T) : M (Factory T) :=
  ForModel f related linkFn.

End Relationships.

Section HasMany.

Context {T R : Type}.

(** [HasFactory[T, R]]; [hf_linkFn] receives the parent and the child and
    writes the child. *)
Record HasFactory : Type := mkHasFactory {
  hf_parent : Factory T;
  hf_child : Factory R;
  hf_count : Z;
  hf_linkFn : option (T -> R -> M R);
}.

Definition Has (parentFactory : Factory T) (childFactory : Factory R)
    (count : Z) (linkFn : option (T -> R -> M R)) : HasFactory :=
  mkHasFactory parentFactory childFactory count linkFn.

(** The body of the loop of [HasFactory.Make]. *)
Definition HasFactory_makeChild (hf : HasFactory) (parent : T) : M R :=
  let* child := Make (hf_child hf) [] in
  match hf_linkFn hf with
  | Some link => link parent child
  | None => ret child
  end.

Definition HasFactory_Make (hf : HasFactory) : M (T * list R) :=
  let* parent := Make (hf_parent hf) [] in
  if decide (hf_count hf < 0)%Z then panic makeslice_panic
  else
    let* children := fill (Z.to_nat (hf_count hf)) (HasFactory_makeChild hf parent) in
    ret (parent, children).

(** The body of the loop of [HasFactory.Create], up to the error check. *)
Definition HasFactory_createChild (hf : HasFactory) (parent : T) : M (result R) :=
  match hf_linkFn hf with
  | Some link =>
      let* c := Recycle (hf_child hf) parent (fun c p => link p c) in
      Create c []
  | None => Create (hf_child hf) []
  end.

(** [HasFactory.Create] returns [(parent *T, children []*R, err error)];
    the parent is [None] where Go returns a nil pointer. *)
Definition HasFactory_Create (hf : HasFactory)
  : M (option T * list R * option Err) :=
  let* p := Create (hf_parent hf) [] in
  match p with
  | Error e => ret (None, [], Some e)
  | Ok parent =>
      if decide (hf_count hf < 0)%Z then panic makeslice_cap_panic
      else
        let* r := collect (Z.to_nat (hf_count hf))
                    (HasFactory_createChild hf parent) [] in
        ret (Some parent, r.1, r.2)
  end.

End HasMany.

(** ** The fluent count *)

Section Counted.

Context {T : Type}.

(** [CountedFactory[T]]: a factory and the number of items to build. *)
Record CountedFactory : Type := mkCountedFactory {
  cf_factory : Factory T;
  cf_count : Z;
}.

Definition Count (f : Factory T) (n : Z) : CountedFactory :=
  mkCountedFactory f n.

Definition Times (f : Factory T) (n : Z) : CountedFactory := Count f n.

Definition CountedFactory_Make (cf : CountedFactory) (ts : list (Trait T))
  : M (list T) :=
  MakeMany (cf_factory cf) (cf_count cf) ts.

Definition CountedFactory_Create (cf : CountedFactory) (ts : list (Trait T))
  : M (list T * option Err) :=
  CreateMany (cf_factory cf) (cf_count cf) ts.

Definition CountedFactory_Raw (cf : CountedFactory) (ts : list (Trait T))
  : M (list T) :=
  RawMany (cf_factory cf) (cf_count cf) ts.

Definition CountedFactory_State (cf : CountedFactory) (name : string)
  : M CountedFactory :=
  let* f := State (cf_factory cf) name in
  ret (mkCountedFactory f (cf_count cf)).

End Counted.

(** ** The variants that panic on error *)

Section Must.

(** [errText e] is [e.Error()], the text of a Go error. *)
Context {T : Type} (errText : Err -> string).


Definition MustCreateMany (f : Factory T) (count : Z) (ts : list (Trait T))
  : M (list T) :=
  let* r := CreateMany f count ts in
  match r.2 with
  | Some e => panic ("factory: MustCreateMany failed: " +:+ errText e)
  | None => ret r.1
  end.

Definition CountedFactory_MustCreate (cf : CountedFactory) (ts : list (Trait T))
  : M (list T) :=
  MustCreateMany (cf_factory cf) (cf_count cf) ts.

End Must.

Section MustHas.

Context {T R : Type} (errText : Err -> string).

Definition HasFactory_MustCreate (hf : @HasFactory T R) : M (option T * list R) :=
  let* r := HasFactory_Create hf in
  match r.2 with
  | Some e => panic ("factory: HasFactory.MustCreate failed: " +:+ errText e)
  | None => ret r.1
  end.

End MustHas.

(** ** Many-to-many through a pivot *)

Section Attached.

Context {T R P : Type}.

(** [HasAttachedFactory[T, R, P]]; [haf_linkFn] receives the pivot, the
    parent and the related value and writes the pivot.  It is [None] for a
    nil function value, which [HasAttached] accepts and the methods call
    without a check. *)
Record HasAttachedFactory : Type := mkHasAttachedFactory {
  haf_parent : Factory T;
  haf_related : Factory R;
  haf_pivotFactory : Factory P;
  haf_count : Z;
  haf_linkFn : option (P -> T -> R -> M P);
}.

Definition HasAttached (parentFactory : Factory T) (relatedFactory : Factory R)
    (pivotFactory : Factory P) (count : Z)
    (linkFn : option (P -> T -> R -> M P)) : HasAttachedFactory :=
  mkHasAttachedFactory parentFactory relatedFactory pivotFactory count linkFn.

(** [haf.linkFn(pivot, parent, related)] *)
Definition HasAttachedFactory_link (haf : HasAttachedFactory)
    (pivot : P) (parent : T) (related : R) : M P :=
  match haf_linkFn haf with
  | Some link => link pivot parent related
  | None => panic nil_deref
  end.

(** The loop of [HasAttachedFactory.Make]; the two slices are filled in
    step. *)
Fixpoint HasAttachedFactory_makeLoop (n : nat) (haf : HasAttachedFactory)
    (parent : T) : M (list R * list P) :=
  match n with
  | O => ret ([], [])
  | S n' =>
      let* rel := Make (haf_related haf) [] in
      let* pivot := Make (haf_pivotFactory haf) [] in
      let* pivot := HasAttachedFactory_link haf pivot parent rel in
      let* rest := HasAttachedFactory_makeLoop n' haf parent in
      ret (rel :: rest.1, pivot :: rest.2)
  end.

Definition HasAttachedFactory_Make (haf : HasAttachedFactory)
  : M (T * list R * list P) :=
  let* parent := Make (haf_parent haf) [] in
  if decide (haf_count haf < 0)%Z then panic makeslice_panic
  else
    let* rp := HasAttachedFactory_makeLoop (Z.to_nat (haf_count haf)) haf parent in
    ret (parent, rp.1, rp.2).

(** The loop of [HasAttachedFactory.Create]: the related value is persisted
    and appended before its pivot is built. *)
Fixpoint HasAttachedFactory_createLoop (n : nat) (haf : HasAttachedFactory)
    (parent : T) (relatedModels : list R) (pivotRecords : list P)
  : M (list R * list P * option Err) :=
  match n with
  | O => ret (relatedModels, pivotRecords, None)
  | S n' =>
      let* r := Create (haf_related haf) [] in
      match r with
      | Error e => ret (relatedModels, pivotRecords, Some e)
      | Ok related =>
          let* p := Create (haf_pivotFactory haf)
                      [fun p => HasAttachedFactory_link haf p parent related] in
          match p with
          | Error e => ret (relatedModels ++ [related], pivotRecords, Some e)
          | Ok pivot =>
              HasAttachedFactory_createLoop n' haf parent
                (relatedModels ++ [related]) (pivotRecords ++ [pivot])
          end
      end
  end.

Definition HasAttachedFactory_Create (haf : HasAttachedFactory)
  : M (option T * list R * list P * option Err) :=
  let* p := Create (haf_parent haf) [] in
  match p with
  | Error e => ret (None, [], [], Some e)
  | Ok parent =>
      if decide (haf_count haf < 0)%Z then panic makeslice_cap_panic
      else
        let* r := HasAttachedFactory_createLoop (Z.to_nat (haf_count haf))
                    haf parent [] [] in
        ret (Some parent, r.1.1, r.1.2, r.2)
  end.

End Attached.

(** ** Vocabulary of the specification *)

Section Vocabulary.

Context {T : Type}.
Implicit Types (f : Factory T) (ts : list (Trait T)) (t : T).

(** Total correctness: from [w] the call returns, with a value and a store
    that satisfy [Q]. *)
Definition returns {A} (m : M A) (w : World) (Q : A -> World -> Prop) : Prop :=
  exists a w', m w = (Done a, w') /\ Q a w'.

(** A mutation that returns on every input. *)
Definition runs (tr : Trait T) : Prop :=
  forall t w, returns (tr t) w (fun _ _ => True).

(** A mutation that sets field [F] to [a]. *)
Definition sets {V} (F : T -> V) (a : V) (tr : Trait T) : Prop :=
  forall t w, returns (tr t) w (fun t' _ => F t' = a).

(** A mutation that leaves field [F] as it found it. *)
Definition keeps {V} (F : T -> V) (tr : Trait T) : Prop :=
  forall t w, returns (tr t) w (fun t' _ => F t' = F t).

(** A call that, when it returns, has left the counter at [l] alone. *)
Definition frames {A} (l : loc) (m : M A) : Prop :=
  forall w a w', m w = (Done a, w') -> cells w' !! l = cells w !! l.

(** Every closure of the definition, and every per-call mutation, leaves the
    definition's own counter alone. *)
Definition closures_frame f ts : Prop :=
  (forall s, frames (seq f) (makeFn f s)) /\
  Forall (fun tr => forall t, frames (seq f) (tr t))
    (defaults f ++ traits f ++ sequences f ++ ts) /\
  (forall t, frames (seq f) (callTap f t)).

(** The cyclic stage as a list of layers: the pattern element at index
    [(s - 1) mod length], nothing for an empty pattern. *)
Definition patternStage f (s : Z) : list (Trait T) :=
  match sequences f with
  | [] => []
  | _ :: _ =>
      match sequences f !! Z.to_nat ((s - 1) `mod` Z.of_nat (length (sequences f))) with
      | Some tr => [tr]
      | None => []
      end
  end.

(** The layers of produce-one in the order the specification gives them. *)
Definition layers (raw : bool) f (s : Z) ts : list (Trait T) :=
  defaults f ++ (if raw then rawDefaults f else []) ++ traits f ++
  patternStage f s ++ ts.

(** Steps 2 to 9 of produce-one for the sequence value [s], the mutation
    layers given as one list. *)
Definition produce_at f (s : Z) (ls : list (Trait T)) : M T :=
  let* t := makeFn f s in
  let* t := applyTraits ls t in
  let* _ := callTap f t in
  ret t.

(** One produce-one per entry of [plan], each with the sequence value and
    the layers the entry names; the counter is left at that value. *)
Fixpoint produce_each f (plan : list (Z * list (Trait T))) : M (list T) :=
  match plan with
  | [] => ret []
  | (s, ls) :: plan' =>
      let* _ := atomic_StoreInt64 (seq f) s in
      let* x := produce_at f s ls in
      let* xs := produce_each f plan' in
      ret (x :: xs)
  end.

(** The sequence values [k+1, ..., k+n]. *)
Definition seqValues (k : Z) (n : nat) : list Z :=
  (fun i => (k + Z.of_nat i)%Z) <$> List.seq 1 n.

(** [succeeds step w items w']: invoked again and again from [w], [step]
    reports no error [length items] times, yields [items] in that order and
    leaves the store [w']. *)
Inductive succeeds {A} (step : M (result A)) : World -> list A -> World -> Prop :=
| succeeds_nil w : succeeds step w [] w
| succeeds_cons w x w1 xs w2 :
    step w = (Done (Ok x), w1) ->
    succeeds step w1 xs w2 ->
    succeeds step w (x :: xs) w2.

End Vocabulary.

(** ** Further vocabulary *)

Section Vocabulary2.

Context {T : Type}.
Implicit Types (f : Factory T) (ts : list (Trait T)) (t : T).

(** The base constructor, every mutation layer of the definition, the
    per-call mutations and the observer return on every input. *)
Definition closures_run f ts : Prop :=
  (forall s w, returns (makeFn f s) w (fun _ _ => True)) /\
  Forall runs (defaults f ++ rawDefaults f ++ traits f ++ sequences f ++ ts) /\
  (forall t w, returns (callTap f t) w (fun _ _ => True)).

(** Every closure of the definition, the hooks and the persist function
    included, leaves the counter at [l] alone. *)
Definition leaves (l : loc) f : Prop :=
  (forall s, frames l (makeFn f s)) /\
  Forall (fun tr => forall t, frames l (tr t))
    (defaults f ++ traits f ++ sequences f) /\
  (forall t, frames l (callTap f t)) /\
  Forall (fun h => forall t, frames l (h t)) (before f ++ after f) /\
  (forall p t, persist f = Some p -> frames l (p t)).

(** What [Create] does with the value [Make] returned: the before-hooks,
    the persist function [p], the after-hooks. *)
Definition persistPath f (p : PersistFn T) (obj : T) : M (result T) :=
  let* b := runHooks (before f) obj in
  match b with
  | Error e => ret (Error e)
  | Ok obj =>
      let* r := p obj in
      match r with
      | (_, Some e) => ret (Error e)
      | (out, None) =>
          let* a := runHooks (after f) out in
          match a with
          | Error e => ret (Error e)
          | Ok out => ret (Ok out)
          end
      end
  end.

End Vocabulary2.

End Engine.

Notation "'let*' x ':=' m 'in' k" := (bind m (fun x => k))
  (at level 10, x pattern, m at level 100, k at level 200).

(** ** Test doubles

    The models of the repository's tests ([User], [Post]) and call-counting
    doubles for the collaborators, used to run the pipeline on concrete
    inputs. *)

Module Scenario.

(** What the doubles record about the calls they received. *)
Record Calls : Type := mkCalls {
  users_saved : nat;        (* calls of the user persist double *)
  posts_saved : nat;        (* calls of the post persist double *)
  hooks_run : nat;          (* calls of the counting hooks *)
  tapped : list Z;          (* sequence numbers seen by the observer *)
}.

Definition no_calls : Calls := mkCalls 0 0 0 [].

Record User : Type := mkUser {
  user_id : Z;              (* 0 until persisted *)
  user_no : Z;              (* the sequence number the user was built with *)
  role : string;
  password : string;
}.

Record Post : Type := mkPost {
  post_id : Z;
  post_no : Z;
  author_no : Z;            (* [user_no] of the linked author, 0 if none *)
}.

(** The engine at this caller state, with strings for Go errors. *)
Abbreviation W := (@World Calls).
Abbreviation Go := (@M Calls).
Abbreviation Mut := (@Trait Calls).
Abbreviation Persist := (@PersistFn Calls string).
Abbreviation F := (@Factory Calls string).

Definition makeUser (s : Z) : Go User := ret (mkUser 0 s "user" "").
Definition makePost (s : Z) : Go Post := ret (mkPost 0 s 0).

Definition setRole (r : string) : Mut User :=
  fun u => ret (mkUser (user_id u) (user_no u) r (password u)).

Definition setPassword (p : string) : Mut User :=
  fun u => ret (mkUser (user_id u) (user_no u) (role u) p).

(** [func(p *Post, u *User) { p.AuthorNo = u.No }] *)
Definition linkAuthor (p : Post) (u : User) : Go Post :=
  ret (mkPost (post_id p) (post_no p) (user_no u)).

(** [func(u *User, p *Post) { p.AuthorNo = u.No }], the link of a has-many. *)
Definition authoredBy (u : User) (p : Post) : Go Post :=
  ret (mkPost (post_id p) (post_no p) (user_no u)).

(** A persist double: counts the call and assigns an identity. *)
Definition saveUser : Persist User :=
  fun u w =>
    let c := user w in
    (Done (mkUser (100 + user_no u) (user_no u) (role u) (password u), None),
     mkWorld (cells w)
       (mkCalls (S (users_saved c)) (posts_saved c) (hooks_run c) (tapped c))).

(** A persist double that fails on its [n]-th call (counted from 1) and
    assigns an identity otherwise; every call is counted. *)
Definition savePostFailingAt (n : nat) : Persist Post :=
  fun p w =>
    let c := user w in
    let w' := mkWorld (cells w)
                (mkCalls (users_saved c) (S (posts_saved c)) (hooks_run c) (tapped c)) in
    if decide (S (posts_saved c) = n)
    then (Done (p, Some "disk full"), w')
    else (Done (mkPost (200 + Z.of_nat (posts_saved c)) (post_no p) (author_no p), None), w').

Definition savePost : Persist Post := savePostFailingAt 0.

(** A hook double that counts the call and lets the value through. *)
Definition countingHook {T} : T -> Go (T * option string) :=
  fun t w =>
    let c := user w in
    (Done (t, None),
     mkWorld (cells w)
       (mkCalls (users_saved c) (posts_saved c) (S (hooks_run c)) (tapped c))).

(** A hook double that rejects the value. *)
Definition rejectingHook {T} : T -> Go (T * option string) :=
  fun t => ret (t, Some "validation failed").

(** An observer double that records the sequence number of what it sees. *)
Definition recordUser : User -> Go unit :=
  fun u w =>
    let c := user w in
    (Done tt,
     mkWorld (cells w)
       (mkCalls (users_saved c) (posts_saved c) (hooks_run c) (tapped c ++ [user_no u]))).

(** [New(makeUser)] and [New(makePost)] called in this order on an empty
    store: the user counter lives at address 0, the post counter at 1. *)
Definition userFactory : F User :=
  mkFactory makeUser [] [] [] [] ∅ None [] [] None 0%nat 0.

Definition postFactory : F Post :=
  mkFactory makePost [] [] [] [] ∅ None [] [] None 1%nat 0.

(** The configurations the properties are run on. *)

(** [userFactory.DefineState("admin", ...)] *)
Definition adminable : F User :=
  DefineState userFactory "admin" (setRole "admin").

(** [userFactory.WithDefaults(...)], the role set to A by a default. *)
Definition layered : F User := WithDefaults userFactory [setRole "A"].

(** [userFactory.Sequence(admin, user)] *)
Definition alternating : F User :=
  Sequence userFactory [setRole "admin"; setRole "user"].

(** [userFactory.WithRawDefaults(...)] *)
Definition withSecret : F User :=
  WithRawDefaults userFactory [setPassword "secret"].

(** [userFactory.Tap(...)] *)
Definition observed : F User := Tap userFactory recordUser.

Definition savedUsers : F User := WithPersist userFactory saveUser.
Definition savedPosts : F Post := WithPersist postFactory savePost.

(** Posts whose third persist fails. *)
Definition failingPosts : F Post :=
  WithPersist postFactory (savePostFailingAt 3).

(** Users with a counting before-hook, a rejecting one, a further counting
    one, and a counting after-hook. *)
Definition guarded : F User :=
  AddAfterCreate
    (AddBeforeCreate
       (AddBeforeCreate (AddBeforeCreate savedUsers countingHook) rejectingHook)
       countingHook)
    countingHook.

(** [Has(users, posts, 5, link)] with the failing post double. *)
Definition userWithPosts : @HasFactory Calls string User Post :=
  Has savedUsers failingPosts 5 (Some authoredBy).

Definition empty_store : W := mkWorld [] no_calls.

(** The store after the two [New]: both counters at 0. *)
Definition fresh : W := mkWorld [0; 0]%Z no_calls.

(** The same store with the user counter advanced to [k]. *)
Definition advanced (k : Z) : W := mkWorld [k; 0%Z] no_calls.

(** Further configurations. *)

(** The join record of a many-to-many relationship. *)
Record Pivot : Type := mkPivot {
  pivot_user : Z;
  pivot_post : Z;
}.

Definition makePivot (s : Z) : Go Pivot := ret (mkPivot 0 0).

(** [func(pv *Pivot, u *User, p *Post) { pv.UserID = u.ID; pv.PostID = p.ID }] *)
Definition attach (pv : Pivot) (u : User) (p : Post) : Go Pivot :=
  ret (mkPivot (user_id u) (post_id p)).

Definition keepPivot : Persist Pivot := fun pv => ret (pv, None).

Definition rejectPivot : Persist Pivot :=
  fun pv => ret (pv, Some "pivot rejected").

(** A third [New]: the pivot counter lives at address 2. *)
Definition pivotFactory : F Pivot :=
  mkFactory makePivot [] [] [] [] ∅ None [] [] None 2%nat 0.


(** Two named states on the user definition. *)
Definition twoStates : F User :=
  DefineState adminable "verified" (setPassword "verified").

(** Posts whose first persist fails, with an after-hook. *)
Definition rejectedPosts : F Post :=
  AddAfterCreate (WithPersist postFactory (savePostFailingAt 1)) countingHook.

(** Users with a counting after-hook, a rejecting one and a further
    counting one. *)
Definition lateReject : F User :=
  AddAfterCreate
    (AddAfterCreate (AddAfterCreate savedUsers countingHook) rejectingHook)
    countingHook.


Definition userWithThreePostsInMemory : @HasFactory Calls string User Post :=
  Has userFactory postFactory 3 (Some authoredBy).

Definition userWithTwoPosts : @HasFactory Calls string User Post :=
  Has savedUsers savedPosts 2 (Some authoredBy).

Definition userWithTwoAttached : @HasAttachedFactory Calls string User Post Pivot :=
  HasAttached savedUsers savedPosts (WithPersist pivotFactory keepPivot) 2
    (Some attach).

Definition userWithRejectedPivot : @HasAttachedFactory Calls string User Post Pivot :=
  HasAttached savedUsers savedPosts (WithPersist pivotFactory rejectPivot) 2
    (Some attach).

(** The store after three [New]. *)
Definition fresh3 : W := mkWorld [0; 0; 0]%Z no_calls.

End Scenario.

(** * Properties of the pipeline *)

Section Properties.

Context {U Err : Type}.

Local Abbreviation World := (@World U).
Local Abbreviation M := (@M U).
Local Abbreviation Trait := (@Trait U).
Local Abbreviation Factory := (@Factory U Err).
Local Abbreviation result := (@result Err).

(** ** The monad *)

Lemma bind_Done {A B} (m : M A) (k : A -> M B) w a w' :
  m w = (Done a, w') -> bind m k w = k a w'.
Proof. intros H. unfold bind. now rewrite H. Qed.

Lemma bind_Panic {A B} (m : M A) (k : A -> M B) w msg w' :
  m w = (Panic msg, w') -> bind m k w = (Panic msg, w').
Proof. intros H. unfold bind. now rewrite H. Qed.

Lemma bind_ext {A B} (m : M A) (k k' : A -> M B) w :
  (forall a w', k a w' = k' a w') -> bind m k w = bind m k' w.
Proof. intros H. unfold bind. destruct (m w) as [[a|msg] w']; auto. Qed.

Lemma bind_assoc {A B C} (m : M A) (k : A -> M B) (h : B -> M C) w :
  bind (bind m k) h w = bind m (fun a => bind (k a) h) w.
Proof. unfold bind. destruct (m w) as [[a|msg] w']; reflexivity. Qed.

Lemma bind_ret_r {A} (m : M A) w : bind m ret w = m w.
Proof. unfold bind, ret. destruct (m w) as [[a|msg] w']; reflexivity. Qed.

(** ** Total correctness *)

Lemma returns_ret {A} (a : A) (w : World) (Q : A -> World -> Prop) :
  Q a w -> returns (ret a) w Q.
Proof. intros H. exists a, w. split; [reflexivity | exact H]. Qed.

Lemma returns_bind {A B} (m : M A) (k : A -> M B) w (Q : B -> World -> Prop) :
  returns m w (fun a w' => returns (k a) w' Q) -> returns (bind m k) w Q.
Proof.
  intros (a & w' & Hm & b & w'' & Hk & HQ).
  exists b, w''. split; [| exact HQ].
  rewrite (bind_Done _ _ _ _ _ Hm). exact Hk.
Qed.

Lemma returns_weaken {A} (m : M A) w (P Q : A -> World -> Prop) :
  returns m w P -> (forall a w', P a w' -> Q a w') -> returns m w Q.
Proof. intros (a & w' & Hm & HP) H. exists a, w'. auto. Qed.

Lemma returns_eq {A} (m : M A) (m' : M A) w w' (Q : A -> World -> Prop) :
  m w = m' w' -> returns m' w' Q -> returns m w Q.
Proof. intros E (a & w'' & Hm & HQ). exists a, w''. split; [congruence | exact HQ]. Qed.

(** ** Loops over mutation lists *)

Section Traits.

Context {T : Type}.
Implicit Types (f : Factory T) (ts : list (Trait T)) (t : T).

Lemma applyTraits_app ts1 ts2 t w :
  applyTraits (ts1 ++ ts2) t w =
  bind (applyTraits ts1 t) (applyTraits ts2) w.
Proof.
  revert t w. induction ts1 as [| tr ts1 IH]; intros t w; simpl.
  - reflexivity.
  - rewrite bind_assoc. apply bind_ext. intros t' w'. apply IH.
Qed.

Lemma applyTraits_runs ts t w :
  Forall runs ts -> returns (applyTraits ts t) w (fun _ _ => True).
Proof.
  intros H. revert t w. induction H as [| tr ts Htr _ IH]; intros t w; simpl.
  - now apply returns_ret.
  - apply returns_bind. eapply returns_weaken; [apply Htr |].
    intros t' w' _. apply IH.
Qed.

Lemma applyTraits_keeps {V} (F : T -> V) ts t w :
  Forall (keeps F) ts -> returns (applyTraits ts t) w (fun t' _ => F t' = F t).
Proof.
  intros H. revert t w. induction H as [| tr ts Htr _ IH]; intros t w; simpl.
  - now apply returns_ret.
  - apply returns_bind. eapply returns_weaken; [apply Htr |].
    intros t' w' Ht'. cbn beta in Ht'.
    eapply returns_weaken; [apply IH |].
    intros t'' w'' Ht''. cbn beta in Ht''. congruence.
Qed.

Lemma keeps_runs {V} (F : T -> V) (tr : Trait T) : keeps F tr -> runs tr.
Proof. intros H t w. eapply returns_weaken; [apply H | auto]. Qed.

End Traits.

(** ** The counter *)

Lemma wrap_in_range z : Int64.in_range z -> Int64.wrap z = z.
Proof.
  unfold Int64.in_range, Int64.wrap, Int64.min_signed, Int64.max_signed,
    Int64.modulus.
  intros H. rewrite Z.mod_small; lia.
Qed.

Lemma nextSeq_at {T} (f : Factory T) (w : World) k :
  cells w !! seq f = Some k ->
  nextSeq f w =
  (Done (Int64.wrap (k + 1)),
   mkWorld (<[seq f := Int64.wrap (k + 1)]> (cells w)) (user w)).
Proof. intros H. unfold nextSeq, atomic_AddInt64. now rewrite H. Qed.

Lemma store_at (l : loc) (v : Z) (w : World) k :
  cells w !! l = Some k ->
  atomic_StoreInt64 l v w = (Done tt, mkWorld (<[l := v]> (cells w)) (user w)).
Proof. intros H. unfold atomic_StoreInt64. now rewrite H. Qed.

Lemma cell_after_write (l : loc) (v : Z) (w : World) k :
  cells w !! l = Some k ->
  cells (mkWorld (<[l := v]> (cells w)) (user w)) !! l = Some v.
Proof.
  intros H. simpl. apply list_lookup_insert_eq.
  apply lookup_lt_is_Some. eauto.
Qed.

(** ** The order of the layers *)

Section Layers.

Context {T : Type}.
Implicit Types (f : Factory T) (ts : list (Trait T)) (t : T).

Lemma bind_cong_l {A B} (m m' : M A) (k : A -> M B) w :
  m w = m' w -> bind m k w = bind m' k w.
Proof. intros H. unfold bind. now rewrite H. Qed.

Lemma applyTraits_app_bind {B} ts1 ts2 t (k : T -> M B) w :
  bind (applyTraits (ts1 ++ ts2) t) k w =
  bind (applyTraits ts1 t) (fun t' => bind (applyTraits ts2 t') k) w.
Proof.
  rewrite <- bind_assoc. apply bind_cong_l, applyTraits_app.
Qed.

Lemma patternStage_elem f s tr : tr ∈ patternStage f s -> tr ∈ sequences f.
Proof.
  unfold patternStage. destruct (sequences f) as [| x l] eqn:E.
  - intros H. inversion H.
  - destruct (_ !! _) as [tr' |] eqn:El.
    + intros H. apply list_elem_of_singleton in H. subst tr'.
      eapply list_elem_of_lookup_2, El.
    + intros H. inversion H.
Qed.

(** For a sequence value that [nextSeq] can return from a counter that
    never went below zero, the guarded indexing of the source is the
    pattern stage of the specification. *)
Lemma applySequence_stage f s t w :
  (1 <= s <= Int64.max_signed)%Z ->
  applySequence f s t w = applyTraits (patternStage f s) t w.
Proof.
  intros Hs. unfold applySequence, patternStage.
  destruct (sequences f) as [| x l] eqn:E.
  - reflexivity.
  - rewrite <- E. assert (Hlen : 0 < length (sequences f)) by (rewrite E; simpl; lia).
    destruct (decide (0 < length (sequences f))) as [_ | Hn]; [| lia].
    rewrite wrap_in_range
      by (unfold Int64.in_range, Int64.min_signed, Int64.max_signed in *; lia).
    rewrite Z.rem_mod_nonneg by lia.
    pose proof (Z.mod_pos_bound (s - 1) (Z.of_nat (length (sequences f)))
                  ltac:(lia)) as Hb.
    unfold index. destruct (decide (_ < 0)%Z) as [Hneg | _]; [lia |].
    destruct (lookup_lt_is_Some_2 (sequences f)
                (Z.to_nat ((s - 1) `mod` Z.of_nat (length (sequences f))))
                ltac:(lia)) as [tr Htr].
    rewrite Htr. simpl. unfold bind at 1. simpl. now rewrite bind_ret_r.
Qed.

Lemma Make_layers f ts w k :
  cells w !! seq f = Some k ->
  (0 <= k < Int64.max_signed)%Z ->
  Make f ts w =
  produce_at f (k + 1) (layers false f (k + 1) ts)
    (mkWorld (<[seq f := (k + 1)%Z]> (cells w)) (user w)).
Proof.
  intros Hcell Hk. unfold Make.
  rewrite (bind_Done _ _ _ _ _ (nextSeq_at f w k Hcell)).
  rewrite wrap_in_range
    by (unfold Int64.in_range, Int64.min_signed, Int64.max_signed in *; lia).
  unfold produce_at, layers. apply bind_ext; intros t w1.
  rewrite applyTraits_app_bind. apply bind_ext; intros t1 w2.
  simpl. rewrite applyTraits_app_bind. apply bind_ext; intros t2 w3.
  rewrite applyTraits_app_bind. apply bind_cong_l.
  apply applySequence_stage. unfold Int64.max_signed in *. lia.
Qed.

Lemma Raw_layers f ts w k :
  cells w !! seq f = Some k ->
  (0 <= k < Int64.max_signed)%Z ->
  Raw f ts w =
  produce_at f (k + 1) (layers true f (k + 1) ts)
    (mkWorld (<[seq f := (k + 1)%Z]> (cells w)) (user w)).
Proof.
  intros Hcell Hk. unfold Raw.
  rewrite (bind_Done _ _ _ _ _ (nextSeq_at f w k Hcell)).
  rewrite wrap_in_range
    by (unfold Int64.in_range, Int64.min_signed, Int64.max_signed in *; lia).
  unfold produce_at, layers. apply bind_ext; intros t w1.
  rewrite applyTraits_app_bind. apply bind_ext; intros t1 w2.
  rewrite applyTraits_app_bind. apply bind_ext; intros t2 w3.
  rewrite applyTraits_app_bind. apply bind_ext; intros t3 w4.
  rewrite applyTraits_app_bind. apply bind_cong_l.
  apply applySequence_stage. unfold Int64.max_signed in *. lia.
Qed.

(** The last layer that writes a field decides it. *)
Lemma applyTraits_last_writer {V} (F : T -> V) (a : V) ts1 (tr : Trait T) ts2 t w :
  Forall runs ts1 -> sets F a tr -> Forall (keeps F) ts2 ->
  returns (applyTraits (ts1 ++ tr :: ts2) t) w (fun t' _ => F t' = a).
Proof.
  intros H1 Htr H2.
  destruct (applyTraits_runs ts1 t w H1) as (t1 & w1 & E1 & _).
  destruct (Htr t1 w1) as (t2 & w2 & E2 & Ha).
  destruct (applyTraits_keeps F ts2 t2 w2 H2) as (t3 & w3 & E3 & Hk).
  exists t3, w3. split; [| congruence].
  rewrite applyTraits_app, (bind_Done _ _ _ _ _ E1). simpl.
  now rewrite (bind_Done _ _ _ _ _ E2).
Qed.

Lemma produce_at_returns f s ls w (Q : T -> Prop) :
  (forall s w, returns (makeFn f s) w (fun _ _ => True)) ->
  (forall t w, returns (callTap f t) w (fun _ _ => True)) ->
  (forall t w, returns (applyTraits ls t) w (fun t' _ => Q t')) ->
  returns (produce_at f s ls) w (fun t' _ => Q t').
Proof.
  intros Hmk Htap Hls. unfold produce_at.
  apply returns_bind. eapply returns_weaken; [apply Hmk |]. intros t0 w0 _.
  apply returns_bind. eapply returns_weaken; [apply Hls |]. intros t1 w1 HQ.
  apply returns_bind. eapply returns_weaken; [apply Htap |]. intros [] w2 _.
  now apply returns_ret.
Qed.

Lemma patternStage_Forall (P : Trait T -> Prop) f s :
  Forall P (sequences f) -> Forall P (patternStage f s).
Proof.
  rewrite !Forall_forall. intros H tr Htr. eapply H, patternStage_elem, Htr.
Qed.

End Layers.

(** C1. The layers of a produced item are applied in one fixed order.  From
    a counter holding [k] (never below zero, not yet at the last 64-bit
    value), [Make] draws [k + 1], calls the base constructor on it, and
    applies, as one list in this order, the defaults, the global traits, the
    pattern element of the cyclic stage (nothing for an empty pattern) and
    the per-call mutations, then calls the observer; [Raw] does the same
    with the raw-only defaults between the defaults and the global traits.
    Hence, for a definition [f0] without global traits whose last default
    sets field [F] to [A] and whose pattern leaves [F] alone: with global
    traits ending in one that sets [F] to [B] and per-call mutations ending
    in one that sets [F] to [C], the item has [F = C]; without the per-call
    mutations it has [F = B]; without the global traits too it has [F = A]. *)
Theorem layer_order {T V} (f0 : Factory T) (ts : list (Trait T)) (w : World) (k : Z)
    (Hcell : cells w !! seq f0 = Some k)
    (Hk : (0 <= k < Int64.max_signed)%Z) :
  let s := (k + 1)%Z in
  let w1 := mkWorld (<[seq f0 := s]> (cells w)) (user w) in
  Make f0 ts w =
    produce_at f0 s (defaults f0 ++ traits f0 ++ patternStage f0 s ++ ts) w1 /\
  Raw f0 ts w =
    produce_at f0 s
      (defaults f0 ++ rawDefaults f0 ++ traits f0 ++ patternStage f0 s ++ ts) w1 /\
  forall (F : T -> V) (A B C : V) (a b c : Trait T) (d0 g0 ts0 : list (Trait T)),
    (forall s w, returns (makeFn f0 s) w (fun _ _ => True)) ->
    (forall t w, returns (callTap f0 t) w (fun _ _ => True)) ->
    Forall runs d0 -> Forall runs g0 -> Forall runs ts0 ->
    Forall (keeps F) (sequences f0) ->
    defaults f0 = d0 ++ [a] -> traits f0 = [] ->
    sets F A a -> sets F B b -> sets F C c ->
    let f := WithTraits f0 (g0 ++ [b]) in
    returns (Make f (ts0 ++ [c])) w (fun t _ => F t = C) /\
    returns (Make f []) w (fun t _ => F t = B) /\
    returns (Make f0 []) w (fun t _ => F t = A).
Proof.
  intros s w1. split; [| split].
  - apply (Make_layers f0 ts w k Hcell Hk).
  - apply (Raw_layers f0 ts w k Hcell Hk).
  - intros F A B C a b c d0 g0 ts0 Hmk Htap Hd0 Hg0 Hts0 Hseq Hdef Htr Ha Hb Hc f.
    assert (Hstage : forall g : Factory T, sequences g = sequences f0 ->
              Forall (keeps F) (patternStage g s)).
    { intros g Hg. apply patternStage_Forall. now rewrite Hg. }
    assert (Hstage' : Forall runs (patternStage f s)).
    { eapply Forall_impl; [apply (Hstage f eq_refl) |]. apply keeps_runs. }
    assert (Hra : runs a) by (intros t0 w0; eapply returns_weaken; [apply Ha | auto]).
    assert (Hrb : runs b) by (intros t0 w0; eapply returns_weaken; [apply Hb | auto]).
    split; [| split].
    + eapply returns_eq; [apply (Make_layers f (ts0 ++ [c]) w k Hcell Hk) |].
      apply produce_at_returns; [exact Hmk | exact Htap |].
      intros t0 w0. unfold layers. simpl. rewrite Htr, Hdef. simpl.
      replace ((d0 ++ [a]) ++ (g0 ++ [b]) ++ patternStage f (k + 1) ++ ts0 ++ [c])
        with (((d0 ++ [a]) ++ (g0 ++ [b]) ++ patternStage f (k + 1) ++ ts0) ++ c :: [])
        by (now rewrite <- !app_assoc).
      apply applyTraits_last_writer; [| exact Hc | constructor].
      rewrite !Forall_app. repeat split; auto.
    + eapply returns_eq; [apply (Make_layers f [] w k Hcell Hk) |].
      apply produce_at_returns; [exact Hmk | exact Htap |].
      intros t0 w0. unfold layers. simpl. rewrite Htr, Hdef. simpl.
      replace ((d0 ++ [a]) ++ (g0 ++ [b]) ++ patternStage f (k + 1) ++ [])
        with (((d0 ++ [a]) ++ g0) ++ b :: patternStage f (k + 1))
        by (rewrite app_nil_r, <- !app_assoc; reflexivity).
      apply applyTraits_last_writer; [| exact Hb | apply (Hstage f eq_refl)].
      rewrite !Forall_app. repeat split; auto.
    + eapply returns_eq; [apply (Make_layers f0 [] w k Hcell Hk) |].
      apply produce_at_returns; [exact Hmk | exact Htap |].
      intros t0 w0. unfold layers. rewrite Htr, Hdef. simpl.
      replace ((d0 ++ [a]) ++ patternStage f0 (k + 1) ++ [])
        with (d0 ++ a :: patternStage f0 (k + 1))
        by (rewrite app_nil_r, <- !app_assoc; reflexivity).
      apply applyTraits_last_writer; [exact Hd0 | exact Ha | apply (Hstage f0 eq_refl)].
Qed.

(** ** Successive invocations *)

Section Successive.

Context {T : Type}.
Implicit Types (f : Factory T) (ts : list (Trait T)) (t : T).

Lemma frames_ret {A} l (a : A) : frames l (ret a : M A).
Proof. intros w b w' H. unfold ret in H. now inversion H. Qed.

Lemma frames_bind {A B} l (m : M A) (k : A -> M B) :
  frames l m -> (forall a, frames l (k a)) -> frames l (bind m k).
Proof.
  intros Hm Hk w b w' H. unfold bind in H.
  destruct (m w) as [[a | msg] w1] eqn:E; [| discriminate].
  rewrite (Hk a w1 b w' H). apply (Hm w a w1 E).
Qed.

Lemma applyTraits_frames l ts :
  Forall (fun tr : Trait T => forall t, frames l (tr t)) ts ->
  forall t, frames l (applyTraits ts t).
Proof.
  induction 1 as [| tr ts Htr _ IH]; intros t; simpl.
  - apply frames_ret.
  - apply frames_bind; [apply Htr | apply IH].
Qed.

Lemma produce_at_frames f ts s :
  closures_frame f ts -> frames (seq f) (produce_at f s (layers false f s ts)).
Proof.
  intros (Hmk & Hall & Htap). unfold produce_at.
  rewrite !Forall_app in Hall. destruct Hall as (Hd & Hg & Hp & Hts).
  apply frames_bind; [apply Hmk |]. intros t0.
  apply frames_bind.
  { apply applyTraits_frames. unfold layers. rewrite !Forall_app.
    repeat split; auto. now apply patternStage_Forall. }
  intros t1. apply frames_bind; [apply Htap |]. intros _. apply frames_ret.
Qed.

Lemma seqValues_S k n : seqValues k (S n) = (k + 1)%Z :: seqValues (k + 1) n.
Proof.
  unfold seqValues. simpl. f_equal.
  rewrite <- seq_shift, <- list_fmap_compose.
  apply list_fmap_ext. intros _ i _. simpl. lia.
Qed.

(** From a counter holding [k], [n] invocations of [Make] in succession are
    [n] runs of the pipeline on the sequence values [k+1, ..., k+n]. *)
Lemma fill_Make f ts n : forall w k,
  cells w !! seq f = Some k ->
  (0 <= k)%Z -> (k + Z.of_nat n <= Int64.max_signed)%Z ->
  closures_frame f ts ->
  fill n (Make f ts) w =
  produce_each f ((fun s => (s, layers false f s ts)) <$> seqValues k n) w.
Proof.
  induction n as [| n IH]; intros w k Hcell Hk Hn Hfr.
  - reflexivity.
  - rewrite seqValues_S. simpl.
    rewrite (bind_Done _ _ _ _ _ (store_at (seq f) (k + 1) w k Hcell)).
    unfold bind at 1. rewrite (Make_layers f ts w k Hcell) by lia.
    unfold bind at 2.
    destruct (produce_at f (k + 1) (layers false f (k + 1) ts) _)
      as [[x | msg] w2] eqn:E; [| reflexivity].
    apply bind_cong_l. apply IH; [| lia | lia | exact Hfr].
    rewrite (produce_at_frames f ts (k + 1) Hfr _ _ _ E).
    eapply cell_after_write, Hcell.
Qed.

End Successive.

(** C4. From a definition with an empty pattern whose counter is at zero (a
    new one, or one that was reset), [n] invocations of [Make] in succession
    -- the loop of [MakeMany] -- are [n] runs of the pipeline, the [i]-th of
    them on the sequence value [i]: the base constructor is called on
    1, 2, ..., [n] in this order, each value greater by one than the one
    before.  The closures are taken to leave the definition's own counter
    alone, and [n] to be at most the last 64-bit value. *)
Theorem successive_sequence_values {T} (f : Factory T) (ts : list (Trait T))
    (n : nat) (w : World)
    (Hpat : sequences f = [])
    (Hcell : cells w !! seq f = Some 0%Z)
    (Hn : (Z.of_nat n <= Int64.max_signed)%Z)
    (Hframe : closures_frame f ts) :
  let values := Z.of_nat <$> List.seq 1 n in
  fill n (Make f ts) w =
    produce_each f ((fun s => (s, defaults f ++ traits f ++ ts)) <$> values) w /\
  length values = n /\
  (forall i : nat, i < n -> values !! i = Some (Z.of_nat i + 1)%Z).
Proof.
  intros values.
  assert (Hv : seqValues 0 n = values).
  { unfold seqValues, values. apply list_fmap_ext. intros _ i _. simpl. lia. }
  split; [| split].
  - rewrite (fill_Make f ts n w 0 Hcell) by (auto; lia).
    rewrite Hv. f_equal. apply list_fmap_ext. intros _ s _.
    unfold layers, patternStage. now rewrite Hpat.
  - unfold values. now rewrite length_fmap, length_seq.
  - intros i Hi. unfold values. rewrite list_lookup_fmap, lookup_seq_lt by exact Hi.
    simpl. f_equal. lia.
Qed.

(** C5. The cyclic stage.  For a counter holding [k] (so that the item is
    produced with sequence value [s = k + 1]): with a non-empty pattern the
    item gets, after the global traits and before the per-call mutations,
    the pattern element at index [(s - 1) mod length]; with an empty pattern
    it gets no cyclic stage.  With the pattern [X, Y] and the counter at
    zero, five invocations in succession apply X, Y, X, Y, X in this
    order. *)
Theorem pattern_cycling {T} (f : Factory T) (ts : list (Trait T)) (w : World) (k : Z)
    (Hcell : cells w !! seq f = Some k)
    (Hk : (0 <= k < Int64.max_signed)%Z) :
  let s := (k + 1)%Z in
  let w1 := mkWorld (<[seq f := s]> (cells w)) (user w) in
  (sequences f <> [] ->
   exists tr,
     sequences f !! Z.to_nat ((s - 1) `mod` Z.of_nat (length (sequences f))) = Some tr /\
     Make f ts w = produce_at f s (defaults f ++ traits f ++ [tr] ++ ts) w1) /\
  (sequences f = [] ->
   Make f ts w = produce_at f s (defaults f ++ traits f ++ ts) w1) /\
  (forall X Y : Trait T,
     sequences f = [X; Y] -> k = 0%Z -> closures_frame f ts ->
     fill 5 (Make f ts) w =
     produce_each f
       [(1%Z, defaults f ++ traits f ++ [X] ++ ts);
        (2%Z, defaults f ++ traits f ++ [Y] ++ ts);
        (3%Z, defaults f ++ traits f ++ [X] ++ ts);
        (4%Z, defaults f ++ traits f ++ [Y] ++ ts);
        (5%Z, defaults f ++ traits f ++ [X] ++ ts)] w).
Proof.
  intros s w1. split; [| split].
  - intros Hne.
    assert (Hlen : 0 < length (sequences f)).
    { destruct (sequences f); [congruence | simpl; lia]. }
    pose proof (Z.mod_pos_bound (s - 1) (Z.of_nat (length (sequences f)))
                  ltac:(lia)) as Hb.
    destruct (lookup_lt_is_Some_2 (sequences f)
                (Z.to_nat ((s - 1) `mod` Z.of_nat (length (sequences f))))
                ltac:(lia)) as [tr Htr].
    exists tr. split; [exact Htr |].
    rewrite (Make_layers f ts w k Hcell Hk). unfold layers, patternStage.
    fold s. rewrite Htr. destruct (sequences f); [congruence | reflexivity].
  - intros He. rewrite (Make_layers f ts w k Hcell Hk).
    unfold layers, patternStage. now rewrite He.
  - intros X Y Hxy -> Hfr.
    rewrite (fill_Make f ts 5 w 0 Hcell) by (auto; unfold Int64.max_signed; lia).
    unfold layers, patternStage. rewrite Hxy. reflexivity.
Qed.

(** C6. Raw-only defaults reach raw mode only.  Let a raw-only default [g]
    set field [G] to [v], and let every other layer that comes after the
    base constructor (the raw-only defaults before [g] apart) leave [G]
    alone.  Then [Make] returns an item whose [G] is the one the base
    constructor gave it, and [Raw], from the same store, returns an item
    whose [G] is [v]. *)
Theorem rawDefaults_only_in_Raw {T V} (f : Factory T) (ts : list (Trait T))
    (w : World) (k : Z) (G : T -> V) (v : V) (g : Trait T)
    (rd0 rd1 : list (Trait T))
    (Hcell : cells w !! seq f = Some k)
    (Hk : (0 <= k < Int64.max_signed)%Z)
    (Hmk : forall s w, returns (makeFn f s) w (fun _ _ => True))
    (Htap : forall t w, returns (callTap f t) w (fun _ _ => True))
    (Hraw : rawDefaults f = rd0 ++ g :: rd1)
    (Hrd0 : Forall runs rd0)
    (Hg : sets G v g)
    (Hrd1 : Forall (keeps G) rd1)
    (Hkeep : Forall (keeps G) (defaults f ++ traits f ++ sequences f ++ ts)) :
  let w1 := mkWorld (<[seq f := (k + 1)%Z]> (cells w)) (user w) in
  exists t0 w0,
    makeFn f (k + 1) w1 = (Done t0, w0) /\
    returns (Make f ts) w (fun t _ => G t = G t0) /\
    returns (Raw f ts) w (fun t _ => G t = v).
Proof.
  intros w1. destruct (Hmk (k + 1)%Z w1) as (t0 & w0 & Emk & _).
  exists t0, w0. split; [exact Emk |].
  rewrite !Forall_app in Hkeep. destruct Hkeep as (Hd & Htr & Hp & Hts).
  pose proof (patternStage_Forall (keeps G) f (k + 1) Hp) as Hst.
  assert (Hfinish : forall Q : T -> Prop, forall ls,
            returns (applyTraits ls t0) w0 (fun t _ => Q t) ->
            returns (produce_at f (k + 1) ls) w1 (fun t _ => Q t)).
  { intros Q ls Hls. unfold produce_at. apply returns_bind.
    exists t0, w0. split; [exact Emk |].
    apply returns_bind. eapply returns_weaken; [apply Hls |]. intros t1 w2 HQ.
    apply returns_bind. eapply returns_weaken; [apply Htap |]. intros [] w3 _.
    now apply returns_ret. }
  split.
  - eapply returns_eq; [apply (Make_layers f ts w k Hcell Hk) |].
    apply (Hfinish (fun t => G t = G t0)). apply applyTraits_keeps.
    unfold layers. rewrite !Forall_app. repeat split; auto.
  - eapply returns_eq; [apply (Raw_layers f ts w k Hcell Hk) |].
    apply (Hfinish (fun t => G t = v)). unfold layers. rewrite Hraw.
    replace (defaults f ++ (rd0 ++ g :: rd1) ++ traits f ++ patternStage f (k + 1) ++ ts)
      with ((defaults f ++ rd0) ++ g :: (rd1 ++ traits f ++ patternStage f (k + 1) ++ ts))
      by (now rewrite <- !app_assoc).
    apply applyTraits_last_writer; [| exact Hg |].
    + rewrite Forall_app. split; [| exact Hrd0].
      eapply Forall_impl; [exact Hd |]. apply keeps_runs.
    + rewrite !Forall_app. repeat split; auto.
Qed.

(** ** Copies of a definition *)

Lemma cell_of_copy (w : World) (l : loc) (k v : Z) :
  cells w !! l = Some k ->
  l <> length (cells w) /\
  (cells w ++ [v]) !! l = Some k /\
  (cells w ++ [v]) !! length (cells w) = Some v.
Proof.
  intros H. pose proof (lookup_lt_Some _ _ _ H) as Hlt.
  split; [lia |]. split.
  - now rewrite lookup_app_l.
  - now rewrite list_lookup_middle.
Qed.

(** C2, as the code has it.  [Clone] and [State] both return a new instance
    with a counter of its own: drawing a sequence value for the copy leaves
    the source's counter where it was.  [Clone], on any definition, starts
    the copy's counter at zero, so the first value produced from the clone
    sees sequence number 1 whatever the source's counter holds.  [State],
    for a defined name, copies the struct, counter included: from a source
    whose counter holds [k], the first value produced from the instance
    returned by [State(name)] sees [k + 1]. *)
Theorem copies_have_their_own_counter {T} (f : Factory T)
    (ts : list (Trait T)) (w : World) (k : Z)
    (Hcell : cells w !! seq f = Some k) :
  returns (Clone f) w (fun c wc =>
    seq c <> seq f /\
    cells wc !! seq c = Some 0%Z /\
    let wc' := mkWorld (<[seq c := 1%Z]> (cells wc)) (user wc) in
    Make c ts wc = produce_at c 1 (layers false c 1 ts) wc' /\
    cells wc' !! seq f = Some k) /\
  forall (name : string) (tr : Trait T),
    states f !! name = Some tr ->
    returns (State f name) w (fun c ws =>
      seq c <> seq f /\
      traits c = traits f ++ [tr] /\
      cells ws !! seq c = Some k /\
      let ws' := mkWorld (<[seq c := (k + 1)%Z]> (cells ws)) (user ws) in
      ((0 <= k < Int64.max_signed)%Z ->
       Make c ts ws = produce_at c (k + 1) (layers false c (k + 1) ts) ws') /\
      cells ws' !! seq f = Some k).
Proof.
  destruct (cell_of_copy w (seq f) k 0 Hcell) as (Hne & Hold & Hnew).
  destruct (cell_of_copy w (seq f) k k Hcell) as (_ & Hold' & Hnew').
  split.
  - unfold returns, Clone, bind, alloc, ret. eexists _, _. split; [reflexivity |].
    simpl. repeat split; auto.
    + refine (Make_layers (mkFactory _ _ _ _ _ _ _ _ _ _ _ _) ts
                (mkWorld _ _) 0 Hnew _).
      unfold Int64.max_signed. lia.
    + rewrite list_lookup_insert_ne by auto. exact Hold.
  - intros name tr Hstate.
    unfold returns, State. rewrite Hstate. unfold bind, load, alloc, ret.
    rewrite Hcell. eexists _, _. split; [reflexivity |].
    simpl. repeat split; auto.
    + intros Hk.
      exact (Make_layers (mkFactory _ _ _ _ _ _ _ _ _ _ _ _) ts
               (mkWorld _ _) k Hnew' Hk).
    + rewrite list_lookup_insert_ne by auto. exact Hold'.
Qed.

(** ** Belongs-to with a fresh parent *)

Lemma load_at (l : loc) (w : World) k :
  cells w !! l = Some k -> load l w = (Done k, w).
Proof. intros H. unfold load. now rewrite H. Qed.



(** ** The persistence path *)

Section Persistence.

Context {T : Type}.
Implicit Types (f : Factory T) (ts : list (Trait T)) (t : T).

Lemma runHooks_stops (hs1 hs2 : list (T -> M (T * option Err)))
    (h : T -> M (T * option Err)) t w t' w1 t'' e w2 :
  runHooks hs1 t w = (Done (Ok t'), w1) ->
  h t' w1 = (Done (t'', Some e), w2) ->
  runHooks (hs1 ++ h :: hs2) t w = (Done (Error e), w2).
Proof.
  revert t w. induction hs1 as [| h1 hs1 IH]; intros t w Hpre Hfail; simpl in *.
  - unfold ret in Hpre. inversion Hpre; subst.
    now rewrite (bind_Done _ _ _ _ _ Hfail).
  - unfold bind in Hpre |- *.
    destruct (h1 t w) as [[[t1 [e1 |]] | msg] w'] eqn:E; try discriminate.
    now apply IH.
Qed.

Lemma collect_stops {A} (step : M (result A)) w items w1 e w2 :
  succeeds step w items w1 ->
  step w1 = (Done (Error e), w2) ->
  forall n acc, length items < n ->
  collect n step acc w = (Done (acc ++ items, Some e), w2).
Proof.
  induction 1 as [w | w x w' xs w1 Hx _ IH]; intros Hfail n acc Hn.
  - destruct n as [| n]; [simpl in Hn; lia |]. simpl.
    rewrite (bind_Done _ _ _ _ _ Hfail). now rewrite app_nil_r.
  - destruct n as [| n]; [simpl in Hn; lia |]. simpl.
    rewrite (bind_Done _ _ _ _ _ Hx).
    rewrite (IH Hfail n (acc ++ [x])) by (simpl in Hn; lia).
    now rewrite <- app_assoc.
Qed.

Lemma Create_returns_persist f ts w r w' :
  Create f ts w = (Done r, w') -> persist f <> None.
Proof.
  unfold Create. destruct (persist f); [congruence |].
  unfold panic. discriminate.
Qed.

End Persistence.

(** C7. A before-hook that reports an error ends [Create] there.  Let the
    hooks before [h] pass and [h] report [e], leaving the store [w3].  Then
    [Create] returns exactly the error [e] and leaves exactly the store
    [w3]: nothing ran after [h].  The same holds whatever the persist
    function, the before-hooks after [h] and the after-hooks are, so none of
    them is invoked. *)
Theorem before_hook_error_aborts {T} (f : Factory T) (ts : list (Trait T))
    (p : PersistFn T) (hs1 hs2 : list (BeforeCreate T)) (h : BeforeCreate T)
    (w w1 w2 w3 : World) (obj obj' obj'' : T) (e : Err)
    (Hp : persist f = Some p)
    (Hbefore : before f = hs1 ++ h :: hs2)
    (Hmake : Make f ts w = (Done obj, w1))
    (Hpass : runHooks hs1 obj w1 = (Done (Ok obj'), w2))
    (Hfail : h obj' w2 = (Done (obj'', Some e), w3)) :
  Create f ts w = (Done (Error e), w3) /\
  forall (p' : PersistFn T) (hs2' : list (BeforeCreate T))
         (after' : list (AfterCreate T)),
    Create (mkFactory (makeFn f) (defaults f) (rawDefaults f) (traits f)
              (sequences f) (states f) (Some p') (hs1 ++ h :: hs2') after'
              (tapFn f) (seq f) (count f)) ts w
    = (Done (Error e), w3).
Proof.
  split.
  - unfold Create. rewrite Hp, Hbefore.
    rewrite (bind_Done _ _ _ _ _ Hmake).
    now rewrite (bind_Done _ _ _ _ _ (runHooks_stops hs1 hs2 h _ _ _ _ _ _ _ Hpass Hfail)).
  - intros p' hs2' after'. unfold Create. simpl.
    change (Make _ ts) with (Make f ts).
    rewrite (bind_Done _ _ _ _ _ Hmake).
    now rewrite (bind_Done _ _ _ _ _ (runHooks_stops hs1 hs2' h _ _ _ _ _ _ _ Hpass Hfail)).
Qed.

(** C8. Partial results on failure.  If the first [k - 1] invocations of
    [Create] inside [CreateMany] succeed with [items] and the [k]-th, of [n],
    fails with [e], then [CreateMany] returns [e] together with exactly
    [items].  If the parent of a has-many run is persisted and the first
    [j - 1] children are persisted as [children] and the [j]-th, of
    [hf_count], fails with [e'], then [HasFactory.Create] returns [e']
    together with the persisted parent and exactly [children]: fewer than
    the full count, and not an empty list as soon as one child was
    persisted. *)
Theorem partial_results_on_failure {T P R}
    (f : Factory T) (ts : list (Trait T)) (n : Z) (k : nat) (items : list T)
    (w wk w' : World) (e : Err)
    (hf : @HasFactory U Err P R) (parent : P) (j : nat) (children : list R)
    (v v0 vj v' : World) (e' : Err)
    (Hk : length items + 1 = k) (Hkn : (Z.of_nat k <= n)%Z)
    (Hitems : succeeds (Create f ts) w items wk)
    (Hfail : Create f ts wk = (Done (Error e), w'))
    (Hj : length children + 1 = j) (Hjn : (Z.of_nat j <= hf_count hf)%Z)
    (Hparent : Create (hf_parent hf) [] v = (Done (Ok parent), v0))
    (Hchildren : succeeds (HasFactory_createChild hf parent) v0 children vj)
    (Hfail' : HasFactory_createChild hf parent vj = (Done (Error e'), v')) :
  CreateMany f n ts w = (Done (items, Some e), w') /\
  HasFactory_Create hf v = (Done (Some parent, children, Some e'), v') /\
  (Z.of_nat (length children) < hf_count hf)%Z /\
  (2 <= j -> children <> []).
Proof.
  split; [| split; [| split]].
  - unfold CreateMany.
    destruct (persist f) eqn:Ep;
      [| now apply Create_returns_persist in Hfail].
    destruct (decide (n < 0)%Z) as [Hneg | _]; [lia |].
    apply (collect_stops _ _ _ _ _ _ Hitems Hfail). lia.
  - unfold HasFactory_Create.
    rewrite (bind_Done _ _ _ _ _ Hparent).
    destruct (decide (hf_count hf < 0)%Z) as [Hneg | _]; [lia |].
    rewrite (bind_Done _ _ _ _ _
               (collect_stops _ _ _ _ _ _ Hchildren Hfail'
                  (Z.to_nat (hf_count hf)) [] ltac:(lia))).
    reflexivity.
  - lia.
  - intros H2 ->. simpl in Hj. lia.
Qed.

(** ** Configuration errors *)

(** C9. A persistence-backed operation on a definition with no persist
    function panics, and so does applying a state name that was never
    defined, on any definition: [Create] and [CreateMany] panic with their
    message before the counter moves or any closure runs, for every count
    and every per-call mutation, and [State] panics with the message naming
    the state.  None of them returns, so none returns an error value or an
    unmodified definition. *)
Theorem configuration_errors_panic {T} (f : Factory T) :
  (persist f = None ->
   forall ts w,
     Create f ts w =
     (Panic "factory: Create called without persist function; use WithPersist", w)) /\
  (persist f = None ->
   forall n ts w,
     CreateMany f n ts w =
     (Panic "factory: CreateMany called without persist function; use WithPersist", w)) /\
  (forall name, states f !! name = None ->
   forall w,
     State f name w = (Panic ("factory: unknown state '" +:+ name +:+ "'"), w)).
Proof.
  repeat split.
  - intros Hpersist ts w. unfold Create. now rewrite Hpersist.
  - intros Hpersist n ts w. unfold CreateMany. now rewrite Hpersist.
  - intros name Hstate w. unfold State. now rewrite Hstate.
Qed.

(** ** Raw mode against standard mode *)

(** C10. With an empty [rawDefaults] list, [Raw] and [Make] are the same
    computation: from every store and for the same per-call mutations they
    have the same outcome (the same value, or the same panic) and leave the
    same store, which holds the counter and everything the observer and the
    other closures did. *)
Theorem Raw_is_Make_without_rawDefaults {T} (f : Factory T) (ts : list (Trait T))
    (w : World) (Hraw : rawDefaults f = []) :
  Raw f ts w = Make f ts w.
Proof.
  unfold Raw, Make. rewrite Hraw.
  apply bind_ext; intros s w1.
  apply bind_ext; intros t w2.
  apply bind_ext; intros t1 w3.
  reflexivity.
Qed.

End Properties.

(** * The properties on the test doubles *)

Module Runs.

Import Scenario.

Lemma setRole_sets r : sets role r (setRole r).
Proof. intros u w. eexists _, _. split; reflexivity. Qed.

Lemma setPassword_sets p : sets password p (setPassword p).
Proof. intros u w. eexists _, _. split; reflexivity. Qed.

Lemma makeUser_returns (s : Z) (w : W) : returns (makeUser s) w (fun _ _ => True).
Proof. eexists _, _. split; [reflexivity | exact I]. Qed.

Lemma no_tap_returns (u : User) (w : W) :
  returns (ret tt : Go unit) w (fun _ _ => True).
Proof. eexists _, _. split; [reflexivity | exact I]. Qed.

Lemma pure_frames {A} (l : loc) (a : A) : frames l (ret a : Go A).
Proof. intros w b w' H. unfold ret in H. now inversion H. Qed.

Lemma max_signed_bound (k : Z) : (0 <= k < 1000)%Z -> (0 <= k < Int64.max_signed)%Z.
Proof. unfold Int64.max_signed. lia. Qed.

(** [New] on an empty store gives the user factory of the scenario. *)
Example New_userFactory :
  (New makeUser : Go (F User)) empty_store = (Done userFactory, mkWorld [0%Z] no_calls).
Proof. reflexivity. Qed.

(** The concrete scenario of the specification: three items in memory are
    built on 1, 2, 3 in this order. *)
Example MakeMany_three :
  MakeMany userFactory 3 [] fresh =
  (Done [mkUser 0 1 "user" ""; mkUser 0 2 "user" ""; mkUser 0 3 "user" ""],
   mkWorld [3%Z; 0%Z] no_calls).
Proof. reflexivity. Qed.

(** [ResetSequence] puts the next item back on 1. *)
Example ResetSequence_then_Make :
  (let* f := ResetSequence userFactory in Make f []) (advanced 7) =
  (Done (mkUser 0 1 "user" ""), mkWorld [1%Z; 0%Z] no_calls).
Proof. reflexivity. Qed.

(** [For(posts, users, link).MakeMany(3)]: each post gets a user of its
    own, built on 1, 2, 3. *)
Example For_MakeMany_three :
  (let* c := For postFactory userFactory linkAuthor in MakeMany c 3 []) fresh =
  (Done [mkPost 0 1 1; mkPost 0 2 2; mkPost 0 3 3],
   mkWorld [3%Z; 0%Z; 3%Z] no_calls).
Proof. reflexivity. Qed.

(** C1 on the doubles: the role is C, then B, then A. *)
Lemma layer_order_witness :
  cells fresh !! seq layered = Some 0%Z /\
  returns (Make (WithTraits layered [setRole "B"]) [setRole "C"]) fresh
    (fun u _ => role u = "C") /\
  returns (Make (WithTraits layered [setRole "B"]) []) fresh
    (fun u _ => role u = "B") /\
  returns (Make layered []) fresh (fun u _ => role u = "A").
Proof.
  split; [reflexivity |].
  destruct (layer_order (V := string) layered [] fresh 0 eq_refl
              (max_signed_bound 0 ltac:(lia))) as (_ & _ & H).
  apply (H role "A" "B" "C" (setRole "A") (setRole "B") (setRole "C") [] [] []);
    try (constructor; fail); try reflexivity.
  - exact makeUser_returns.
  - exact no_tap_returns.
  - apply setRole_sets.
  - apply setRole_sets.
  - apply setRole_sets.
Defined.

(** C2, the claim refuted: from a counter advanced to 2, the first value
    produced from [State("admin")] is built on 3, not on 1. *)
Lemma State_copy_continues_the_count :
  (let* c := State adminable "admin" in Make c []) (advanced 2) =
  (Done (mkUser 0 3 "admin" ""), mkWorld [2%Z; 0%Z; 3%Z] no_calls) /\
  user_no (mkUser 0 3 "admin" "") <> 1%Z.
Proof. split; [reflexivity | discriminate]. Qed.

(** C2 on the doubles: from a counter advanced to 2, the clone starts at
    zero and the state copy at 2; the clone of a definition without any
    named state starts at zero as well. *)
Lemma copies_have_their_own_counter_witness :
  cells (advanced 2) !! seq adminable = Some 2%Z /\
  states adminable !! "admin" = Some (setRole "admin") /\
  returns (Clone adminable) (advanced 2)
    (fun c wc => cells wc !! seq c = Some 0%Z) /\
  returns (State adminable "admin") (advanced 2)
    (fun c ws => cells ws !! seq c = Some 2%Z) /\
  states userFactory = ∅ /\
  returns (Clone userFactory) (advanced 2)
    (fun c wc => cells wc !! seq c = Some 0%Z /\
                 Make c [] wc =
                 (Done (mkUser 0 1 "user" ""), mkWorld [2%Z; 0%Z; 1%Z] no_calls)).
Proof.
  assert (Hs : states adminable !! "admin" = Some (setRole "admin"))
    by apply lookup_insert_eq.
  split; [reflexivity |]. split; [exact Hs |].
  destruct (copies_have_their_own_counter adminable [] (advanced 2) 2 eq_refl)
    as [Hc Hst].
  split; [| split; [| split; [reflexivity |]]].
  - eapply returns_weaken; [exact Hc |]. intros c wc (_ & H & _). exact H.
  - eapply returns_weaken; [exact (Hst "admin" (setRole "admin") Hs) |].
    intros c ws (_ & _ & H & _). exact H.
  - destruct (copies_have_their_own_counter userFactory [] (advanced 2) 2 eq_refl)
      as [Hu _].
    destruct Hu as (c & wc & E & _ & H0 & Hm & _).
    exists c, wc. split; [exact E |]. split; [exact H0 |].
    unfold Clone, bind, alloc, ret in E. inversion E; subst c wc.
    rewrite Hm. reflexivity.
Defined.



Lemma userFactory_frames ts :
  Forall (fun tr : Mut User => forall u, frames 0 (tr u)) ts ->
  forall f : F User,
    makeFn f = makeUser -> seq f = 0 -> tapFn f = None ->
    Forall (fun tr : Mut User => forall u, frames 0 (tr u))
      (defaults f ++ traits f ++ sequences f) ->
    closures_frame f ts.
Proof.
  intros Hts f Hmk Hseq Htap Hall. unfold closures_frame. rewrite Hseq, Hmk.
  split; [intros s; apply pure_frames |]. split.
  - rewrite !Forall_app in Hall. destruct Hall as (Hd & Hg & Hp).
    repeat (apply Forall_app; split); assumption.
  - intros u. unfold callTap. rewrite Htap. apply pure_frames.
Qed.

(** C4 on the doubles: three invocations build on 1, 2, 3. *)
Lemma successive_sequence_values_witness :
  cells fresh !! seq userFactory = Some 0%Z /\
  fill 3 (Make userFactory []) fresh =
  (Done [mkUser 0 1 "user" ""; mkUser 0 2 "user" ""; mkUser 0 3 "user" ""],
   mkWorld [3%Z; 0%Z] no_calls).
Proof.
  split; [reflexivity |].
  destruct (successive_sequence_values userFactory [] 3 fresh eq_refl eq_refl
              ltac:(unfold Int64.max_signed; lia)
              (userFactory_frames [] ltac:(constructor) userFactory
                 eq_refl eq_refl eq_refl ltac:(constructor))) as [H _].
  rewrite H. reflexivity.
Defined.

(** C5 on the doubles: with the pattern admin, user the five roles
    alternate, starting with admin. *)
Lemma pattern_cycling_witness :
  cells fresh !! seq alternating = Some 0%Z /\
  fill 5 (Make alternating []) fresh =
  (Done [mkUser 0 1 "admin" ""; mkUser 0 2 "user" ""; mkUser 0 3 "admin" "";
         mkUser 0 4 "user" ""; mkUser 0 5 "admin" ""],
   mkWorld [5%Z; 0%Z] no_calls).
Proof.
  split; [reflexivity |].
  destruct (pattern_cycling alternating [] fresh 0 eq_refl
              (max_signed_bound 0 ltac:(lia))) as (_ & _ & H).
  rewrite (H (setRole "admin") (setRole "user") eq_refl eq_refl).
  - reflexivity.
  - apply userFactory_frames; try reflexivity; repeat constructor;
      intros u; apply pure_frames.
Defined.

(** C6 on the doubles: the password set by the raw-only default shows in
    [Raw] and not in [Make]. *)
Lemma rawDefaults_only_in_Raw_witness :
  cells fresh !! seq withSecret = Some 0%Z /\
  rawDefaults withSecret = [] ++ setPassword "secret" :: [] /\
  exists t0 w0,
    makeFn withSecret (0 + 1) (mkWorld (<[seq withSecret := (0 + 1)%Z]> (cells fresh)) (user fresh))
    = (Done t0, w0) /\
    returns (Make withSecret []) fresh (fun t _ => password t = password t0) /\
    returns (Raw withSecret []) fresh (fun t _ => password t = "secret").
Proof.
  split; [reflexivity |]. split; [reflexivity |].
  apply (rawDefaults_only_in_Raw withSecret [] fresh 0 password "secret"
           (setPassword "secret") [] [] eq_refl (max_signed_bound 0 ltac:(lia))
           makeUser_returns no_tap_returns eq_refl).
  - constructor.
  - apply setPassword_sets.
  - constructor.
  - constructor.
Defined.

(** C7 on the doubles: the first hook is counted, the second rejects, and
    neither the third hook, nor the persist double, nor the after-hook is
    counted. *)
Lemma before_hook_error_aborts_witness :
  persist guarded = Some saveUser /\
  before guarded = [countingHook] ++ rejectingHook :: [countingHook] /\
  Create guarded [] fresh =
  (Done (Error "validation failed"), mkWorld [1%Z; 0%Z] (mkCalls 0 0 1 [])).
Proof.
  split; [reflexivity |]. split; [reflexivity |].
  refine (proj1 (before_hook_error_aborts guarded [] saveUser
                   [countingHook] [countingHook] rejectingHook
                   fresh _ _ _ _ _ _ _ eq_refl eq_refl _ _ _)); reflexivity.
Defined.

(** C8 on the doubles: the third of five persists fails; [CreateMany]
    returns the first two posts, and the has-many run returns the persisted
    user and the first two posts. *)
Lemma partial_results_on_failure_witness :
  CreateMany failingPosts 5 [] fresh =
  (Done ([mkPost 200 1 0; mkPost 201 2 0], Some "disk full"),
   mkWorld [0%Z; 3%Z] (mkCalls 0 3 0 [])) /\
  HasFactory_Create userWithPosts fresh =
  (Done (Some (mkUser 101 1 "user" ""),
         [mkPost 200 1 1; mkPost 201 1 1], Some "disk full"),
   mkWorld [1%Z; 0%Z; 1%Z; 1%Z; 1%Z] (mkCalls 1 3 0 [])) /\
  (Z.of_nat (length [mkPost 200 1 1; mkPost 201 1 1]) < hf_count userWithPosts)%Z /\
  (2 <= 3 -> [mkPost 200 1 1; mkPost 201 1 1] <> []).
Proof.
  eapply (partial_results_on_failure failingPosts [] 5 3 _ fresh _ _ _
            userWithPosts _ 3 _ fresh).
  - reflexivity.
  - lia.
  - eapply succeeds_cons; [reflexivity |].
    eapply succeeds_cons; [reflexivity |]. apply succeeds_nil.
  - reflexivity.
  - reflexivity.
  - simpl. lia.
  - reflexivity.
  - eapply succeeds_cons; [reflexivity |].
    eapply succeeds_cons; [reflexivity |]. apply succeeds_nil.
  - reflexivity.
Defined.

(** C9 on the doubles: no persist function, and a state never defined, on
    a definition without and on one with a persist function. *)
Lemma configuration_errors_panic_witness :
  persist userFactory = None /\
  states userFactory !! "nonexistent" = None /\
  Create userFactory [] fresh =
    (Panic "factory: Create called without persist function; use WithPersist", fresh) /\
  CreateMany userFactory 5 [] fresh =
    (Panic "factory: CreateMany called without persist function; use WithPersist", fresh) /\
  State userFactory "nonexistent" fresh =
    (Panic "factory: unknown state 'nonexistent'", fresh) /\
  persist savedUsers = Some saveUser /\
  State savedUsers "nonexistent" fresh =
    (Panic "factory: unknown state 'nonexistent'", fresh).
Proof.
  split; [reflexivity |]. split; [reflexivity |].
  destruct (configuration_errors_panic userFactory) as (H1 & H2 & H3).
  split; [apply (H1 eq_refl) |]. split; [apply (H2 eq_refl) |].
  split; [apply (H3 "nonexistent" eq_refl) |]. split; [reflexivity |].
  destruct (configuration_errors_panic savedUsers) as (_ & _ & H3').
  apply (H3' "nonexistent" eq_refl).
Defined.

(** C10 on the doubles: with an observer and a per-call mutation, [Raw] and
    [Make] agree, observer included. *)
Lemma Raw_is_Make_without_rawDefaults_witness :
  rawDefaults observed = [] /\
  Raw observed [setRole "editor"] fresh = Make observed [setRole "editor"] fresh /\
  Make observed [setRole "editor"] fresh =
  (Done (mkUser 0 1 "editor" ""), mkWorld [1%Z; 0%Z] (mkCalls 0 0 0 [1%Z])).
Proof.
  split; [reflexivity |]. split; [| reflexivity].
  apply (Raw_is_Make_without_rawDefaults observed [setRole "editor"] fresh eq_refl).
Defined.

End Runs.

(** * Further properties of the library *)

Section MoreProperties.

Context {U Err : Type}.

Local Abbreviation World := (@World U).
Local Abbreviation M := (@M U).
Local Abbreviation Trait := (@Trait U).
Local Abbreviation Factory := (@Factory U Err).
Local Abbreviation result := (@result Err).

(** ** Copies and their first item *)

Lemma bind_ret_l {A B} (a : A) (k : A -> M B) w : bind (ret a) k w = k a w.
Proof. reflexivity. Qed.

Lemma bind_ext_Done {A B} (m : M A) (k k' : A -> M B) w :
  (forall a w', m w = (Done a, w') -> k a w' = k' a w') ->
  bind m k w = bind m k' w.
Proof. intros H. unfold bind. destruct (m w) as [[a | msg] w']; auto. Qed.

Lemma bind_cong_at {A B} (m m' : M A) (k : A -> M B) w w' :
  m w = m' w' -> bind m k w = bind m' k w'.
Proof. intros H. unfold bind. now rewrite H. Qed.

Lemma write_last_cell (l : list Z) (v v' : Z) :
  <[length l := v']> (l ++ [v]) = l ++ [v'].
Proof.
  rewrite insert_app_r_alt by lia. now rewrite Nat.sub_diag.
Qed.

(** [Make] on a copy that lives in a fresh cell holding [k] and keeps the
    base constructor, the defaults, the pattern and the observer of [f]. *)
Lemma Make_on_copy {T} (f c : Factory T) (ts : list (Trait T)) (w : World) (k : Z) :
  makeFn c = makeFn f -> defaults c = defaults f ->
  sequences c = sequences f -> tapFn c = tapFn f ->
  seq c = length (cells w) ->
  (0 <= k < Int64.max_signed)%Z ->
  Make c ts (mkWorld (cells w ++ [k]) (user w)) =
  produce_at f (k + 1)
    (defaults f ++ traits c ++ patternStage f (k + 1) ++ ts)
    (mkWorld (cells w ++ [(k + 1)%Z]) (user w)).
Proof.
  intros Hmk Hd Hs Htap Hseq Hk.
  assert (Hcell : cells (mkWorld (cells w ++ [k]) (user w)) !! seq c = Some k)
    by (simpl; rewrite Hseq; now apply list_lookup_middle).
  rewrite (Make_layers c ts _ k Hcell Hk).
  simpl. rewrite Hseq, write_last_cell.
  unfold produce_at, layers, patternStage, callTap.
  now rewrite Hmk, Hd, Hs, Htap.
Qed.

(** X1. A new factory has a counter of its own at zero and no layers: the
    first item made from it is the base constructor's value for 1 with the
    per-call mutations applied, and nothing else. *)
Theorem New_first_item {T} (mk : Z -> M T) (ts : list (Trait T)) (w : World) :
  returns (New mk) w (fun (f : Factory T) w0 =>
    seq f = length (cells w) /\
    w0 = mkWorld (cells w ++ [0%Z]) (user w) /\
    persist f = None /\
    Make f ts w0 =
    (let* t := mk 1%Z in applyTraits ts t)
      (mkWorld (cells w ++ [1%Z]) (user w))).
Proof.
  eexists _, _. split; [reflexivity |]. simpl. repeat split.
  rewrite (Make_on_copy (mkFactory mk [] [] [] [] ∅ None [] [] None 0%nat 0) _ ts w 0)
    by (try reflexivity; unfold Int64.max_signed; lia).
  unfold produce_at. simpl. apply bind_ext; intros t w1.
  transitivity (bind (applyTraits ts t) ret w1); [| apply bind_ret_r].
  apply bind_ext; intros t' w2. reflexivity.
Qed.

(** X2. [ResetSequence] followed by [Make] builds on 1, whatever the counter
    held before. *)
Theorem ResetSequence_then_Make_builds_on_1 {T} (f : Factory T)
    (ts : list (Trait T)) (w : World) (k : Z)
    (Hcell : cells w !! seq f = Some k) :
  (let* f' := ResetSequence f in Make f' ts) w =
  produce_at f 1 (layers false f 1 ts)
    (mkWorld (<[seq f := 1%Z]> (cells w)) (user w)).
Proof.
  unfold ResetSequence. rewrite bind_assoc.
  rewrite (bind_Done _ _ _ _ _ (store_at (seq f) 0 w k Hcell)).
  rewrite bind_ret_l.
  rewrite (Make_layers f ts _ 0 (cell_after_write _ _ _ _ Hcell))
    by (unfold Int64.max_signed; lia).
  simpl. now rewrite list_insert_insert_eq.
Qed.

Lemma State_run {T} (f : Factory T) (name : string) (tr : Trait T)
    (w : World) (k : Z) :
  states f !! name = Some tr -> cells w !! seq f = Some k ->
  State f name w =
  (Done (mkFactory (makeFn f) (defaults f) (rawDefaults f) (traits f ++ [tr])
           (sequences f) (states f) (persist f) (before f) (after f)
           (tapFn f) (length (cells w)) (count f)),
   mkWorld (cells w ++ [k]) (user w)).
Proof.
  intros Hs Hcell. unfold State. rewrite Hs.
  rewrite (bind_Done _ _ _ _ _ (load_at _ _ _ Hcell)). reflexivity.
Qed.

Lemma ForModel_run {T R} (f : Factory T) (related : R) (linkFn : T -> R -> M T)
    (w : World) (k : Z) :
  cells w !! seq f = Some k ->
  ForModel f related linkFn w =
  (Done (mkFactory (makeFn f) (defaults f) (rawDefaults f)
           (traits f ++ [fun t => linkFn t related])
           (sequences f) (states f) (persist f) (before f) (after f)
           (tapFn f) (length (cells w)) (count f)),
   mkWorld (cells w ++ [k]) (user w)).
Proof.
  intros Hcell. unfold ForModel.
  rewrite (bind_Done _ _ _ _ _ (load_at _ _ _ Hcell)). reflexivity.
Qed.

(** X3. The trait of an applied state is a global trait of the copy: an
    item made from [State(name)] gets it after the global traits the source
    had and before the pattern element and the per-call mutations.  The copy
    draws from a cell of its own; the source's cell is not written. *)
Theorem State_then_Make {T} (f : Factory T) (name : string) (tr : Trait T)
    (ts : list (Trait T)) (w : World) (k : Z)
    (Hstate : states f !! name = Some tr)
    (Hcell : cells w !! seq f = Some k)
    (Hk : (0 <= k < Int64.max_signed)%Z) :
  (let* c := State f name in Make c ts) w =
  produce_at f (k + 1)
    (defaults f ++ (traits f ++ [tr]) ++ patternStage f (k + 1) ++ ts)
    (mkWorld (cells w ++ [(k + 1)%Z]) (user w)).
Proof.
  rewrite (bind_Done _ _ _ _ _ (State_run f name tr w k Hstate Hcell)).
  now apply Make_on_copy.
Qed.

(** X4. States chain: the copy carries the registry, so [State(a)] followed
    by [State(b)] succeeds when both names are defined on the source, and
    the result has the two traits after the source's global traits, in the
    order of application. *)
Theorem State_chain {T} (f : Factory T) (a b : string) (ta tb : Trait T)
    (w : World) (k : Z)
    (Ha : states f !! a = Some ta) (Hb : states f !! b = Some tb)
    (Hcell : cells w !! seq f = Some k) :
  returns (let* c := State f a in State c b) w (fun c w' =>
    traits c = traits f ++ [ta; tb] /\
    states c = states f /\
    seq c = S (length (cells w)) /\
    w' = mkWorld (cells w ++ [k; k]) (user w)).
Proof.
  unfold returns.
  rewrite (bind_Done _ _ _ _ _ (State_run f a ta w k Ha Hcell)).
  rewrite (State_run (mkFactory _ _ _ _ _ _ _ _ _ _ _ _) b tb (mkWorld _ _) k Hb
             (list_lookup_middle (cells w) [] k (length (cells w)) eq_refl)).
  eexists _, _. split; [reflexivity |]. cbn [traits states seq cells user].
  repeat split.
  - now rewrite <- app_assoc.
  - rewrite length_app. simpl. lia.
  - now rewrite <- app_assoc.
Qed.

(** X5. The registry is a map: [State(name)] applies the trait of the last
    [DefineState] for that name, and defining a name changes nothing for the
    other names, defined or not. *)
Theorem DefineState_then_State {T} (f : Factory T) (name other : string)
    (tr0 tr : Trait T) (w : World) (k : Z)
    (Hcell : cells w !! seq f = Some k)
    (Hother : other <> name) :
  returns (State (DefineState (DefineState f name tr0) name tr) name) w
    (fun c _ => traits c = traits f ++ [tr]) /\
  (forall tr', states f !! other = Some tr' ->
     returns (State (DefineState f name tr) other) w
       (fun c _ => traits c = traits f ++ [tr'])) /\
  (states f !! other = None ->
     State (DefineState f name tr) other w =
     (Panic ("factory: unknown state '" +:+ other +:+ "'"), w)).
Proof.
  split; [| split].
  - eexists _, _. split;
      [apply (State_run (DefineState (DefineState f name tr0) name tr) name tr w k);
         [apply lookup_insert_eq | exact Hcell]
      | reflexivity].
  - intros tr' Htr'.
    assert (Hl : states (DefineState f name tr) !! other = Some tr').
    { unfold DefineState. cbn [states].
      rewrite lookup_insert_ne by congruence. exact Htr'. }
    eexists _, _. split;
      [apply (State_run (DefineState f name tr) other tr' w k Hl Hcell) | reflexivity].
  - intros Hnone. unfold State, DefineState. cbn [states].
    rewrite lookup_insert_ne by congruence. now rewrite Hnone.
Qed.

(** X6. [When] and [Unless] are complements: for either value of the
    condition exactly one of them appends the traits, to the global traits
    of the same instance and to nothing else, and the other returns the
    instance as it is. *)
Theorem When_Unless_complement {T} (f : Factory T) (condition : bool)
    (ts : list (Trait T)) :
  Unless f condition ts = When f (negb condition) ts /\
  When f condition ts = (if condition then WithTraits f ts else f) /\
  traits (Unless (When f condition ts) condition ts) = traits f ++ ts /\
  seq (Unless (When f condition ts) condition ts) = seq f /\
  defaults (Unless (When f condition ts) condition ts) = defaults f /\
  sequences (Unless (When f condition ts) condition ts) = sequences f.
Proof. destruct condition; repeat split. Qed.

(** X7. The observer sees the item once, after every mutation, and has no
    say in what is returned: [Make] on a definition with observer [fn] is
    [Make] without observer followed by [fn] on the finished item, and
    returns that item. *)
Theorem Tap_observes_finished_item {T} (f : Factory T) (fn : T -> M unit)
    (ts : list (Trait T)) (w : World)
    (Htap : tapFn f = None) :
  Make (Tap f fn) ts w =
  (let* t := Make f ts in let* _ := fn t in ret t) w.
Proof.
  unfold Make. cbn [Tap makeFn defaults traits].
  change (nextSeq (Tap f fn)) with (nextSeq f).
  do 6 (rewrite bind_assoc; apply bind_ext; intros ? ?).
  unfold callTap. cbn [Tap tapFn]. rewrite Htap. reflexivity.
Qed.

(** X8. Belongs-to with a shared parent.  The link to the one existing
    related value is a global trait of the copy returned by [ForModel] (and
    by its alias [Recycle]): every item made from the copy is linked to that
    same value, after the global traits of the source and before the pattern
    element and the per-call mutations.  The copy draws from a cell of its
    own that starts at the source's counter value. *)
Theorem ForModel_then_Make {T R} (f : Factory T) (related : R)
    (linkFn : T -> R -> M T) (ts : list (Trait T)) (w : World) (k : Z)
    (Hcell : cells w !! seq f = Some k)
    (Hk : (0 <= k < Int64.max_signed)%Z) :
  (let* c := ForModel f related linkFn in Make c ts) w =
  produce_at f (k + 1)
    (defaults f ++ (traits f ++ [fun t => linkFn t related]) ++
     patternStage f (k + 1) ++ ts)
    (mkWorld (cells w ++ [(k + 1)%Z]) (user w)) /\
  Recycle f related linkFn w = ForModel f related linkFn w.
Proof.
  split; [| reflexivity].
  rewrite (bind_Done _ _ _ _ _ (ForModel_run f related linkFn w k Hcell)).
  now apply Make_on_copy.
Qed.

(** X9. The pattern element is chosen by the counter alone.  Two calls of
    [Make] in succession, with per-call mutations [ts1] and then [ts2], are
    the pipeline on [k + 1] with the pattern element for [k + 1] and [ts1],
    then the pipeline on [k + 2] with the pattern element for [k + 2] and
    [ts2]: what the first call is given does not move the cycle. *)
Theorem Make_twice {T} (f : Factory T) (ts1 ts2 : list (Trait T))
    (w : World) (k : Z)
    (Hcell : cells w !! seq f = Some k)
    (Hk : (0 <= k)%Z) (Hk2 : (k + 2 <= Int64.max_signed)%Z)
    (Hframe : closures_frame f ts1) :
  (let* a := Make f ts1 in let* b := Make f ts2 in ret (a, b)) w =
  (let* _ := atomic_StoreInt64 (seq f) (k + 1) in
   let* a := produce_at f (k + 1) (layers false f (k + 1) ts1) in
   let* _ := atomic_StoreInt64 (seq f) (k + 2) in
   let* b := produce_at f (k + 2) (layers false f (k + 2) ts2) in
   ret (a, b)) w.
Proof.
  rewrite (bind_Done _ _ _ _ _ (store_at (seq f) (k + 1) w k Hcell)).
  rewrite (bind_cong_at _ _ _ _ _ (Make_layers f ts1 w k Hcell ltac:(lia))).
  apply bind_ext_Done. intros a w2 E.
  assert (Hcell2 : cells w2 !! seq f = Some (k + 1)%Z).
  { rewrite (produce_at_frames f ts1 (k + 1) Hframe _ _ _ E).
    eapply cell_after_write, Hcell. }
  rewrite (bind_Done _ _ _ _ _ (store_at (seq f) (k + 2) w2 (k + 1) Hcell2)).
  rewrite (bind_cong_at _ _ _ _ _ (Make_layers f ts2 w2 (k + 1) Hcell2 ltac:(lia))).
  now replace (k + 1 + 1)%Z with (k + 2)%Z by lia.
Qed.

(** X10. The pattern index is computed with Go's truncating remainder.  On
    a counter that has wrapped below zero and with a non-empty pattern,
    [(seq - 1) % len] is negative unless [len] divides [seq - 1], and [Make]
    then panics with the runtime's bounds error naming that index,
    after the base constructor, the defaults and the global traits have
    run. *)
Theorem Make_panics_on_negative_pattern_index {T} (f : Factory T)
    (ts : list (Trait T)) (w w1 w2 w3 : World) (k : Z) (t0 t1 t2 : T)
    (Hcell : cells w !! seq f = Some k)
    (Hk : (Int64.min_signed <= k < 0)%Z)
    (Hpat : sequences f <> [])
    (Hrem : Z.rem k (Z.of_nat (length (sequences f))) <> 0%Z)
    (Hmk : makeFn f (k + 1)
             (mkWorld (<[seq f := (k + 1)%Z]> (cells w)) (user w)) = (Done t0, w1))
    (Hdef : applyTraits (defaults f) t0 w1 = (Done t1, w2))
    (Htr : applyTraits (traits f) t1 w2 = (Done t2, w3)) :
  Make f ts w =
  (Panic ("runtime error: index out of range [" +:+
          pretty (Z.rem k (Z.of_nat (length (sequences f)))) +:+ "]"), w3).
Proof.
  assert (Hw : Int64.wrap (k + 1) = (k + 1)%Z).
  { apply wrap_in_range.
    unfold Int64.in_range, Int64.min_signed, Int64.max_signed in *. lia. }
  assert (Hw' : Int64.wrap (k + 1 - 1) = k).
  { replace (k + 1 - 1)%Z with k by lia. apply wrap_in_range.
    unfold Int64.in_range, Int64.min_signed, Int64.max_signed in *. lia. }
  unfold Make. rewrite (bind_Done _ _ _ _ _ (nextSeq_at f w k Hcell)), Hw.
  rewrite (bind_Done _ _ _ _ _ Hmk), (bind_Done _ _ _ _ _ Hdef),
    (bind_Done _ _ _ _ _ Htr).
  unfold applySequence.
  destruct (decide (0 < length (sequences f))) as [Hlen | Hlen].
  - rewrite Hw'. unfold index.
    pose proof (Z.rem_nonpos k (Z.of_nat (length (sequences f)))
                  ltac:(lia) ltac:(lia)) as Hle.
    destruct (decide (_ < 0)%Z) as [Hlt | Hge]; [| lia].
    unfold index_out_of_range.
    destruct (decide (_ < 0)%Z) as [_ | Hge]; [reflexivity | lia].
  - exfalso. apply Hpat. destruct (sequences f); [reflexivity | simpl in Hlen; lia].
Qed.

(** X22. A clone is configured like its source, whatever the source is and
    whatever its counter holds.  [Clone()] returns, in a fresh cell holding
    zero, a definition with the source's base constructor, defaults,
    raw-only defaults, global traits, pattern, state registry, persist
    function, hooks, observer and count.  The first item made from it is
    the source's pipeline on 1, in standard and in raw mode, and a state
    defined on the source can be applied to it. *)
Theorem Clone_is_configured_like_source {T} (f : Factory T)
    (ts : list (Trait T)) (w : World) :
  (let* c := Clone f in Make c ts) w =
    produce_at f 1 (layers false f 1 ts)
      (mkWorld (cells w ++ [1%Z]) (user w)) /\
  (let* c := Clone f in Raw c ts) w =
    produce_at f 1 (layers true f 1 ts)
      (mkWorld (cells w ++ [1%Z]) (user w)) /\
  returns (Clone f) w (fun c w' =>
    w' = mkWorld (cells w ++ [0%Z]) (user w) /\ seq c = length (cells w) /\
    makeFn c = makeFn f /\ defaults c = defaults f /\
    rawDefaults c = rawDefaults f /\ traits c = traits f /\
    sequences c = sequences f /\ states c = states f /\
    persist c = persist f /\ before c = before f /\ after c = after f /\
    tapFn c = tapFn f /\ count c = count f) /\
  forall (name : string) (tr : Trait T),
    states f !! name = Some tr ->
    returns (let* c := Clone f in State c name) w (fun c' _ =>
      traits c' = traits f ++ [tr] /\ persist c' = persist f /\
      before c' = before f /\ after c' = after f /\ states c' = states f).
Proof.
  split; [| split; [| split]].
  - unfold Clone. rewrite bind_assoc. unfold bind at 1. unfold alloc at 1.
    rewrite bind_ret_l.
    apply (Make_on_copy f (mkFactory _ _ _ _ _ _ _ _ _ _ _ _) ts w 0);
      try reflexivity.
    unfold Int64.max_signed. lia.
  - unfold Clone. rewrite bind_assoc. unfold bind at 1. unfold alloc at 1.
    rewrite bind_ret_l.
    assert (Hcell : cells (mkWorld (cells w ++ [0%Z]) (user w)) !! length (cells w)
                    = Some 0%Z) by (simpl; now apply list_lookup_middle).
    rewrite (Raw_layers (mkFactory _ _ _ _ _ _ _ _ _ _ _ _) ts (mkWorld _ _) 0 Hcell)
      by (unfold Int64.max_signed; lia).
    cbn [cells user seq]. now rewrite write_last_cell.
  - eexists _, _. split; [reflexivity |]. cbn. repeat split.
  - intros name tr Hstate.
    unfold returns, Clone. rewrite bind_assoc. unfold bind at 1. unfold alloc at 1.
    rewrite bind_ret_l.
    rewrite (State_run (mkFactory _ _ _ _ _ _ _ _ _ _ _ _) name tr (mkWorld _ _) 0
               Hstate
               (list_lookup_middle (cells w) [] 0%Z (length (cells w)) eq_refl)).
    eexists _, _. split; [reflexivity |]. repeat split.
Qed.

(** ** The persistence path, step by step *)

Lemma Create_persistPath {T} (f : Factory T) (p : PersistFn T)
    (ts : list (Trait T)) (w : World) :
  persist f = Some p ->
  Create f ts w = bind (Make f ts) (persistPath f p) w.
Proof. intros Hp. unfold Create. now rewrite Hp. Qed.

(** X11. An error of the persist function ends [Create] there: the error
    is returned as it is, no item is returned, and no after-hook runs,
    whatever the after-hooks are. *)
Theorem persist_error_skips_after_hooks {T} (f : Factory T) (ts : list (Trait T))
    (p : PersistFn T) (w w1 w2 w3 : World) (obj obj' out : T) (e : Err)
    (Hp : persist f = Some p)
    (Hmake : Make f ts w = (Done obj, w1))
    (Hbefore : runHooks (before f) obj w1 = (Done (Ok obj'), w2))
    (Hfail : p obj' w2 = (Done (out, Some e), w3)) :
  Create f ts w = (Done (Error e), w3) /\
  forall after' : list (AfterCreate T),
    Create (mkFactory (makeFn f) (defaults f) (rawDefaults f) (traits f)
              (sequences f) (states f) (persist f) (before f) after'
              (tapFn f) (seq f) (count f)) ts w
    = (Done (Error e), w3).
Proof.
  split.
  - rewrite (Create_persistPath f p ts w Hp), (bind_Done _ _ _ _ _ Hmake).
    unfold persistPath. rewrite (bind_Done _ _ _ _ _ Hbefore).
    now rewrite (bind_Done _ _ _ _ _ Hfail).
  - intros after'. unfold Create. cbn [persist before after]. rewrite Hp.
    change (Make _ ts) with (Make f ts).
    rewrite (bind_Done _ _ _ _ _ Hmake), (bind_Done _ _ _ _ _ Hbefore).
    now rewrite (bind_Done _ _ _ _ _ Hfail).
Qed.

(** X12. An error of an after-hook comes after the persist function has
    run: [Create] returns the error and no item, and the store it leaves is
    the one the failing hook left, which descends from the store the
    persist function wrote.  Nothing is undone, and the after-hooks that
    follow do not run. *)
Theorem after_hook_error_after_persist {T} (f : Factory T) (ts : list (Trait T))
    (p : PersistFn T) (hs1 hs2 : list (AfterCreate T)) (h : AfterCreate T)
    (w w1 w2 w3 w4 w5 : World) (obj obj' out out' out'' : T) (e : Err)
    (Hp : persist f = Some p)
    (Hafter : after f = hs1 ++ h :: hs2)
    (Hmake : Make f ts w = (Done obj, w1))
    (Hbefore : runHooks (before f) obj w1 = (Done (Ok obj'), w2))
    (Hpersist : p obj' w2 = (Done (out, None), w3))
    (Hpass : runHooks hs1 out w3 = (Done (Ok out'), w4))
    (Hfail : h out' w4 = (Done (out'', Some e), w5)) :
  Create f ts w = (Done (Error e), w5).
Proof.
  rewrite (Create_persistPath f p ts w Hp), (bind_Done _ _ _ _ _ Hmake).
  unfold persistPath. rewrite (bind_Done _ _ _ _ _ Hbefore).
  rewrite (bind_Done _ _ _ _ _ Hpersist), Hafter.
  now rewrite (bind_Done _ _ _ _ _
                 (runHooks_stops hs1 hs2 h _ _ _ _ _ _ _ Hpass Hfail)).
Qed.



(** ** Batches *)

Lemma collect_all {A} (step : M (result A)) w items w1 :
  succeeds step w items w1 ->
  forall acc,
  collect (length items) step acc w = (Done (acc ++ items, None), w1).
Proof.
  induction 1 as [w | w x w' xs w1 Hx _ IH]; intros acc; simpl.
  - now rewrite app_nil_r.
  - rewrite (bind_Done _ _ _ _ _ Hx), IH. now rewrite <- app_assoc.
Qed.

(** X14. [CreateMany] without failure: when [count] invocations of
    [Create] in succession all succeed, [CreateMany] returns their items in
    invocation order and a nil error.  With a count of zero it returns an
    empty list and touches nothing; with a negative count it panics on the
    slice capacity before anything is built. *)
Theorem CreateMany_all_succeed {T} (f : Factory T) (ts : list (Trait T))
    (p : PersistFn T) (items : list T) (w w' : World)
    (Hp : persist f = Some p)
    (Hitems : succeeds (Create f ts) w items w') :
  CreateMany f (Z.of_nat (length items)) ts w = (Done (items, None), w') /\
  CreateMany f 0 ts w = (Done ([], None), w) /\
  (forall n, (n < 0)%Z ->
     CreateMany f n ts w = (Panic makeslice_cap_panic, w)).
Proof.
  unfold CreateMany. rewrite Hp. split; [| split].
  - destruct (decide (_ < 0)%Z) as [Hneg | _]; [lia |].
    rewrite Nat2Z.id. apply (collect_all _ _ _ _ Hitems []).
  - reflexivity.
  - intros n Hn. destruct (decide (n < 0)%Z) as [_ | Hge]; [reflexivity | lia].
Qed.

Lemma fill_returns {A} (m : M A) (Inv : nat -> World -> Prop) (Q : A -> Prop)
    (n : nat) :
  forall i w,
  (forall j w, i <= j < i + n -> Inv j w ->
     returns m w (fun x w' => Q x /\ Inv (S j) w')) ->
  Inv i w ->
  returns (fill n m) w (fun xs w' =>
    length xs = n /\ Forall Q xs /\ Inv (i + n) w').
Proof.
  induction n as [| n IH]; intros i w Hm Hi; simpl.
  - apply returns_ret. rewrite Nat.add_0_r. auto.
  - apply returns_bind. eapply returns_weaken; [apply (Hm i w ltac:(lia) Hi) |].
    intros x w1 [HQ Hi1]. cbn beta.
    apply returns_bind. eapply returns_weaken.
    { apply (IH (S i) w1); [| exact Hi1].
      intros j w0 Hj. apply Hm. lia. }
    intros xs w2 (Hlen & Hall & Hi2). cbn beta.
    apply returns_ret. simpl. repeat split; auto.
    now replace (i + S n) with (S i + n) by lia.
Qed.

(** One [Make] returns and moves the counter from [k] to [k + 1]. *)
Lemma Make_bumps {T} (f : Factory T) (ts : list (Trait T)) (w : World) (k : Z) :
  closures_run f ts -> closures_frame f ts ->
  cells w !! seq f = Some k -> (0 <= k < Int64.max_signed)%Z ->
  returns (Make f ts) w (fun _ w' => cells w' !! seq f = Some (k + 1)%Z).
Proof.
  intros (Hmk & Hall & Htap) Hfr Hcell Hk.
  rewrite !Forall_app in Hall. destruct Hall as (Hd & _ & Hg & Hp & Hts).
  assert (Hr : returns (produce_at f (k + 1) (layers false f (k + 1) ts))
                 (mkWorld (<[seq f := (k + 1)%Z]> (cells w)) (user w))
                 (fun _ _ => True)).
  { apply (produce_at_returns f _ _ _ (fun _ => True) Hmk Htap).
    intros t0 w0. apply applyTraits_runs. unfold layers.
    rewrite !Forall_app. repeat split; auto. now apply patternStage_Forall. }
  destruct Hr as (t & w' & E & _).
  exists t, w'. split; [now rewrite (Make_layers f ts w k Hcell Hk) |].
  rewrite (produce_at_frames f ts (k + 1) Hfr _ _ _ E).
  eapply cell_after_write, Hcell.
Qed.



(** ** Has-many *)

(** X17. [HasFactory.Make] makes the parent first and then exactly [count]
    children from the child definition, each handed with the parent to the
    link function as the last step, so each child carries what the link
    sets; the child counter moves by [count]. *)
Theorem HasFactory_Make_children {T R V} (hf : @HasFactory U Err T R)
    (link : T -> R -> M R) (G : R -> V) (v : V)
    (w w0 : World) (parent : T) (k : Z)
    (Hlink : hf_linkFn hf = Some link)
    (Hparent : Make (hf_parent hf) [] w = (Done parent, w0))
    (Hcell : cells w0 !! seq (hf_child hf) = Some k)
    (Hn : (0 <= hf_count hf)%Z) (Hk : (0 <= k)%Z)
    (Hkn : (k + hf_count hf <= Int64.max_signed)%Z)
    (Hrun : closures_run (hf_child hf) [])
    (Hframe : closures_frame (hf_child hf) [])
    (Hsets : sets G v (link parent))
    (Hlframe : forall c, frames (seq (hf_child hf)) (link parent c)) :
  returns (HasFactory_Make hf) w (fun r w' =>
    r.1 = parent /\
    Z.of_nat (length r.2) = hf_count hf /\
    Forall (fun c => G c = v) r.2 /\
    cells w' !! seq (hf_child hf) = Some (k + hf_count hf)%Z).
Proof.
  unfold HasFactory_Make. apply returns_bind.
  exists parent, w0. split; [exact Hparent |].
  destruct (decide (hf_count hf < 0)%Z) as [Hneg | _]; [lia |].
  apply returns_bind. eapply returns_weaken.
  - apply (fill_returns (HasFactory_makeChild hf parent)
             (fun j w' => cells w' !! seq (hf_child hf) = Some (k + Z.of_nat j)%Z)
             (fun c => G c = v) (Z.to_nat (hf_count hf)) 0 w0).
    + intros j w1 Hj Hc. unfold HasFactory_makeChild. rewrite Hlink.
      apply returns_bind. eapply returns_weaken;
        [apply (Make_bumps (hf_child hf) [] w1 _ Hrun Hframe Hc); lia |].
      intros c w2 Hc2. cbn beta in *.
      destruct (Hsets c w2) as (c' & w3 & El & HG).
      exists c', w3. split; [exact El |]. split; [exact HG |].
      rewrite (Hlframe c w2 c' w3 El), Hc2. f_equal. lia.
    + rewrite Hcell. f_equal. lia.
  - intros children w' (Hlen & Hall & Hc). cbn beta in *.
    apply returns_ret. simpl. repeat split; auto; [lia |].
    rewrite Hc. f_equal. lia.
Qed.

Lemma runHooks_frames {T} l (hooks : list (T -> M (T * option Err))) :
  Forall (fun h => forall t, frames l (h t)) hooks ->
  forall t, frames l (runHooks hooks t).
Proof.
  induction 1 as [| h hooks Hh _ IH]; intros t; simpl.
  - apply frames_ret.
  - apply frames_bind; [apply Hh |]. intros [t' [e |]];
      [apply frames_ret | apply IH].
Qed.

Lemma persistPath_frames {T} l (f : Factory T) (p : PersistFn T) :
  leaves l f -> persist f = Some p ->
  forall obj, frames l (persistPath f p obj).
Proof.
  intros (_ & _ & _ & Hhooks & Hpersist) Hp obj.
  rewrite Forall_app in Hhooks. destruct Hhooks as [Hb Ha].
  unfold persistPath. apply frames_bind; [now apply runHooks_frames |].
  intros [obj' | e]; [| apply frames_ret].
  apply frames_bind; [now apply (Hpersist p) |].
  intros [out [e |]]; [apply frames_ret |].
  apply frames_bind; [now apply runHooks_frames |].
  intros [out' | e]; apply frames_ret.
Qed.

Lemma produce_at_frames_list {T} l (f : Factory T) s (ls : list (Trait T)) :
  (forall s, frames l (makeFn f s)) ->
  Forall (fun tr : Trait T => forall t, frames l (tr t)) ls ->
  (forall t, frames l (callTap f t)) ->
  frames l (produce_at f s ls).
Proof.
  intros Hmk Hls Htap. unfold produce_at.
  apply frames_bind; [apply Hmk |]. intros t0.
  apply frames_bind; [now apply applyTraits_frames |]. intros t1.
  apply frames_bind; [apply Htap |]. intros _. apply frames_ret.
Qed.

Lemma createChild_linked {T R} (hf : @HasFactory U Err T R)
    (link : T -> R -> M R) (p : PersistFn R) (parent : T) (w : World) (k : Z) :
  hf_linkFn hf = Some link ->
  persist (hf_child hf) = Some p ->
  cells w !! seq (hf_child hf) = Some k ->
  (0 <= k < Int64.max_signed)%Z ->
  HasFactory_createChild hf parent w =
  bind (produce_at (hf_child hf) (k + 1)
          (defaults (hf_child hf) ++
           (traits (hf_child hf) ++ [fun c => link parent c]) ++
           patternStage (hf_child hf) (k + 1) ++ []))
       (persistPath (hf_child hf) p)
       (mkWorld (cells w ++ [(k + 1)%Z]) (user w)).
Proof.
  intros Hlink Hp Hcell Hk. unfold HasFactory_createChild, Recycle.
  rewrite Hlink.
  rewrite (bind_Done _ _ _ _ _
             (ForModel_run (hf_child hf) parent (fun c p => link p c) w k Hcell)).
  rewrite (Create_persistPath (mkFactory _ _ _ _ _ _ _ _ _ _ _ _) p []
             (mkWorld _ _) Hp).
  apply bind_cong_at. now apply Make_on_copy.
Qed.

(** X18. In [HasFactory.Create] with a link function, each child is
    created from a copy of the child definition taken by [Recycle] for that
    child alone.  The copy draws from a cell of its own that starts at the
    child definition's counter value [k], so the child is built on [k + 1]
    with the link to the persisted parent as its last global trait, and the
    child definition's own counter is not written: it still holds [k] after
    any number of children, and every child of the run is built on the same
    sequence number [k + 1]. *)
Theorem Has_Create_children_share_sequence_number {T R}
    (hf : @HasFactory U Err T R) (link : T -> R -> M R) (p : PersistFn R)
    (parent : T) (w : World) (k : Z)
    (Hlink : hf_linkFn hf = Some link)
    (Hp : persist (hf_child hf) = Some p)
    (Hcell : cells w !! seq (hf_child hf) = Some k)
    (Hk : (0 <= k < Int64.max_signed)%Z)
    (Hleaves : leaves (seq (hf_child hf)) (hf_child hf))
    (Hlframe : forall c, frames (seq (hf_child hf)) (link parent c)) :
  forall (children : list R) (w' : World),
    succeeds (HasFactory_createChild hf parent) w children w' ->
    cells w' !! seq (hf_child hf) = Some k /\
    HasFactory_createChild hf parent w' =
    bind (produce_at (hf_child hf) (k + 1)
            (defaults (hf_child hf) ++
             (traits (hf_child hf) ++ [fun c => link parent c]) ++
             patternStage (hf_child hf) (k + 1) ++ []))
         (persistPath (hf_child hf) p)
         (mkWorld (cells w' ++ [(k + 1)%Z]) (user w')).
Proof.
  intros children w' Hsucc.
  assert (Hinv : cells w' !! seq (hf_child hf) = Some k).
  { revert Hcell.
    induction Hsucc as [w | w x w1 xs w2 Hx _ IH]; intros Hcell; [exact Hcell |].
    apply IH.
    rewrite (createChild_linked hf link p parent w k Hlink Hp Hcell Hk) in Hx.
    pose proof Hleaves as (Hmk & Hall & Htap & Hhooks).
    rewrite !Forall_app in Hall. destruct Hall as (Hd & Hg & Hs).
    assert (Hfr : frames (seq (hf_child hf))
              (bind (produce_at (hf_child hf) (k + 1)
                       (defaults (hf_child hf) ++
                        (traits (hf_child hf) ++ [fun c => link parent c]) ++
                        patternStage (hf_child hf) (k + 1) ++ []))
                    (persistPath (hf_child hf) p))).
    { apply frames_bind.
      - apply produce_at_frames_list; auto.
        rewrite !Forall_app. repeat split; auto;
          try (now apply patternStage_Forall);
          try (constructor; [exact Hlframe | constructor]).
      - apply persistPath_frames; [exact Hleaves | exact Hp]. }
    rewrite (Hfr _ _ _ Hx). simpl.
    now apply lookup_app_l_Some. }
  split; [exact Hinv |].
  now apply createChild_linked.
Qed.

(** X19. The outcomes of [HasFactory.Create] around the children.  If the
    parent cannot be created, the error is returned with no parent and no
    children, and no child is built.  A negative count panics on the slice
    capacity, after the parent has been persisted.  When the parent and all
    [count] children are created, they are returned with a nil error, the
    children in creation order. *)
Theorem HasFactory_Create_outcomes {T R} (hf : @HasFactory U Err T R) (w : World) :
  (forall e w',
     Create (hf_parent hf) [] w = (Done (Error e), w') ->
     HasFactory_Create hf w = (Done (None, [], Some e), w')) /\
  (forall parent w0,
     Create (hf_parent hf) [] w = (Done (Ok parent), w0) ->
     (hf_count hf < 0)%Z ->
     HasFactory_Create hf w = (Panic makeslice_cap_panic, w0)) /\
  (forall parent w0 children w',
     Create (hf_parent hf) [] w = (Done (Ok parent), w0) ->
     succeeds (HasFactory_createChild hf parent) w0 children w' ->
     hf_count hf = Z.of_nat (length children) ->
     HasFactory_Create hf w = (Done (Some parent, children, None), w')).
Proof.
  split; [| split].
  - intros e w' Hpar. unfold HasFactory_Create.
    now rewrite (bind_Done _ _ _ _ _ Hpar).
  - intros parent w0 Hpar Hneg. unfold HasFactory_Create.
    rewrite (bind_Done _ _ _ _ _ Hpar).
    destruct (decide (hf_count hf < 0)%Z) as [_ | Hge]; [reflexivity | lia].
  - intros parent w0 children w' Hpar Hch Hn. unfold HasFactory_Create.
    rewrite (bind_Done _ _ _ _ _ Hpar).
    destruct (decide (hf_count hf < 0)%Z) as [Hneg | _]; [lia |].
    rewrite Hn, Nat2Z.id.
    now rewrite (bind_Done _ _ _ _ _ (collect_all _ _ _ _ Hch [])).
Qed.

(** ** Many-to-many *)

Lemma createLoop_shape {T R P} (haf : @HasAttachedFactory U Err T R P)
    (parent : T) (n : nat) :
  forall (rel : list R) (piv : list P) (w : World) rs ps err w',
  length piv = length rel ->
  HasAttachedFactory_createLoop n haf parent rel piv w = (Done (rs, ps, err), w') ->
  (err = None -> length rs = length rel + n /\ length ps = length rs) /\
  (err <> None ->
     (length rs = length ps \/ length rs = S (length ps)) /\
     length ps < length rel + n).
Proof.
  induction n as [| n IH]; intros rel piv w rs ps err w' Hlen H; simpl in H.
  - unfold ret in H. inversion H; subst. split; [intros _; lia | congruence].
  - unfold bind at 1 in H.
    destruct (Create (haf_related haf) [] w) as [[[related | e] | msg] w1];
      [| | discriminate].
    + unfold bind at 1 in H.
      destruct (Create (haf_pivotFactory haf) _ w1) as [[[pivot | e] | msg] w2];
        [| | discriminate].
      * apply IH in H; [| rewrite !length_app; simpl; lia].
        rewrite !length_app in H. simpl in H.
        destruct H as [Hok Herr]. split.
        -- intros He. destruct (Hok He). lia.
        -- intros He. destruct (Herr He). lia.
      * unfold ret in H. inversion H; subst. split; [congruence |].
        intros _. rewrite length_app. simpl. lia.
    + unfold ret in H. inversion H; subst. split; [congruence |].
      intros _. lia.
Qed.

Lemma makeLoop_shape {T R P} (haf : @HasAttachedFactory U Err T R P)
    (parent : T) (n : nat) :
  forall (w : World) rs ps w',
  HasAttachedFactory_makeLoop n haf parent w = (Done (rs, ps), w') ->
  length rs = n /\ length ps = n.
Proof.
  induction n as [| n IH]; intros w rs ps w' H; simpl in H.
  - unfold ret in H. inversion H; subst. auto.
  - unfold bind at 1 in H.
    destruct (Make (haf_related haf) [] w) as [[rel | msg] w1]; [| discriminate].
    unfold bind at 1 in H.
    destruct (Make (haf_pivotFactory haf) [] w1) as [[pivot | msg] w2];
      [| discriminate].
    unfold bind at 1 in H.
    destruct (HasAttachedFactory_link haf pivot parent rel w2)
      as [[pivot' | msg] w3]; [| discriminate].
    unfold bind at 1 in H.
    destruct (HasAttachedFactory_makeLoop n haf parent w3)
      as [[[rs0 ps0] | msg] w4] eqn:E; [| discriminate].
    unfold ret in H. inversion H; subst. simpl.
    destruct (IH _ _ _ _ E). lia.
Qed.

(** X20. The two lists of a many-to-many run go in step.  Whatever
    [HasAttachedFactory.Make] returns has [count] related values and [count]
    pivots.  Whatever [HasAttachedFactory.Create] returns with a persisted
    parent has, without error, [count] related values and as many pivots;
    with an error, fewer than [count] pivots and either as many related
    values or one more, the related value persisted just before its pivot
    failed. *)
Theorem HasAttached_lists_in_step {T R P} (haf : @HasAttachedFactory U Err T R P)
    (w : World) :
  (forall parent rs ps w',
     HasAttachedFactory_Make haf w = (Done (parent, rs, ps), w') ->
     Z.of_nat (length rs) = haf_count haf /\ length ps = length rs) /\
  (forall parent rs ps err w',
     HasAttachedFactory_Create haf w = (Done (Some parent, rs, ps, err), w') ->
     (err = None ->
        Z.of_nat (length rs) = haf_count haf /\ length ps = length rs) /\
     (err <> None ->
        (length rs = length ps \/ length rs = S (length ps)) /\
        (Z.of_nat (length ps) < haf_count haf)%Z)).
Proof.
  split.
  - intros parent rs ps w' H. unfold HasAttachedFactory_Make in H.
    unfold bind at 1 in H.
    destruct (Make (haf_parent haf) [] w) as [[p | msg] w0]; [| discriminate].
    destruct (decide (haf_count haf < 0)%Z) as [Hneg | Hge]; [discriminate |].
    unfold bind at 1 in H.
    destruct (HasAttachedFactory_makeLoop _ haf p w0)
      as [[[rs0 ps0] | msg] w1] eqn:E; [| discriminate].
    unfold ret in H. inversion H; subst. simpl.
    destruct (makeLoop_shape _ _ _ _ _ _ _ E). lia.
  - intros parent rs ps err w' H. unfold HasAttachedFactory_Create in H.
    unfold bind at 1 in H.
    destruct (Create (haf_parent haf) [] w) as [[[p | e] | msg] w0];
      [| inversion H | discriminate].
    destruct (decide (haf_count haf < 0)%Z) as [Hneg | Hge]; [discriminate |].
    unfold bind at 1 in H.
    destruct (HasAttachedFactory_createLoop _ haf p [] [] w0)
      as [[[[rs0 ps0] err0] | msg] w1] eqn:E; [| discriminate].
    unfold ret in H. inversion H; subst. simpl.
    destruct (createLoop_shape haf parent _ [] [] w0 _ _ _ _ eq_refl E) as [Hok Herr].
    simpl in Hok, Herr. split.
    + intros He. destruct (Hok He). lia.
    + intros He. destruct (Herr He). lia.
Qed.

(** ** The fluent count *)

(** X21. [Count(n).State(name).Make(ts...)] is [State(name)] on the
    underlying definition followed by [MakeMany(n, ts...)] on the copy: the
    count is carried over unchanged, and an undefined name panics as it
    does without the count.  [Times] is [Count]. *)
Theorem Count_State_Make {T} (f : Factory T) (n : Z) (name : string)
    (ts : list (Trait T)) (w : World) :
  (let* cf := CountedFactory_State (Count f n) name in CountedFactory_Make cf ts) w =
  (let* c := State f name in MakeMany c n ts) w /\
  (let* cf := CountedFactory_State (Times f n) name in CountedFactory_Create cf ts) w =
  (let* c := State f name in CreateMany c n ts) w /\
  (states f !! name = None ->
   CountedFactory_State (Count f n) name w =
   (Panic ("factory: unknown state '" +:+ name +:+ "'"), w)).
Proof.
  unfold CountedFactory_State, Times, Count. cbn [cf_factory cf_count].
  split; [| split].
  - rewrite bind_assoc. apply bind_ext. intros c w1. reflexivity.
  - rewrite bind_assoc. apply bind_ext. intros c w1. reflexivity.
  - intros Hnone. unfold State. now rewrite Hnone.
Qed.

End MoreProperties.

(** * The further properties on the test doubles *)

Module MoreRuns.

Import Scenario.

Lemma cells_kept_frames {A} (l : loc) (m : Go A) :
  (forall w a w', m w = (Done a, w') -> cells w' = cells w) -> frames l m.
Proof. intros H w a w' E. now rewrite (H w a w' E). Qed.

Lemma saveUser_frames l u : frames l (saveUser u).
Proof.
  apply cells_kept_frames. intros w a w' E.
  unfold saveUser in E. now inversion E.
Qed.

Lemma savePostFailingAt_frames l n p : frames l (savePostFailingAt n p).
Proof.
  apply cells_kept_frames. intros w a w' E. unfold savePostFailingAt in E.
  destruct (decide _); now inversion E.
Qed.

Lemma authoredBy_sets u : sets author_no (user_no u) (authoredBy u).
Proof. intros p w. eexists _, _. split; reflexivity. Qed.


Lemma postFactory_runs (f : F Post) :
  makeFn f = makePost -> tapFn f = None ->
  defaults f ++ rawDefaults f ++ traits f ++ sequences f ++ [] = [] ->
  closures_run f [].
Proof.
  intros Hmk Htap Hnil. unfold closures_run, callTap. rewrite Hmk, Htap, Hnil.
  split; [| split].
  - intros s w. eexists _, _. split; [reflexivity | exact I].
  - constructor.
  - intros p w. eexists _, _. split; [reflexivity | exact I].
Qed.

Lemma postFactory_frames l (f : F Post) :
  makeFn f = makePost -> tapFn f = None -> seq f = l ->
  defaults f ++ traits f ++ sequences f ++ [] = [] ->
  closures_frame f [].
Proof.
  intros Hmk Htap Hseq Hnil. unfold closures_frame, callTap.
  rewrite Hmk, Htap, Hnil.
  split; [| split].
  - intros s. apply Runs.pure_frames.
  - constructor.
  - intros p. apply Runs.pure_frames.
Qed.

(** X2 on the doubles: from a counter at 7, the item after the reset is
    built on 1. *)
Lemma ResetSequence_then_Make_witness :
  cells (advanced 7) !! seq userFactory = Some 7%Z /\
  (let* f' := ResetSequence userFactory in Make f' []) (advanced 7) =
  (Done (mkUser 0 1 "user" ""), mkWorld [1%Z; 0%Z] no_calls).
Proof.
  split; [reflexivity |].
  rewrite (ResetSequence_then_Make_builds_on_1 userFactory [] (advanced 7) 7 eq_refl).
  reflexivity.
Defined.

(** X3 on the doubles: a per-call mutation overrides the applied state. *)
Lemma State_then_Make_witness :
  states adminable !! "admin" = Some (setRole "admin") /\
  (let* c := State adminable "admin" in Make c [setRole "super"]) (advanced 2) =
  (Done (mkUser 0 3 "super" ""), mkWorld [2%Z; 0%Z; 3%Z] no_calls) /\
  (let* c := State adminable "admin" in Make c []) (advanced 2) =
  (Done (mkUser 0 3 "admin" ""), mkWorld [2%Z; 0%Z; 3%Z] no_calls).
Proof.
  assert (Hs : states adminable !! "admin" = Some (setRole "admin"))
    by apply lookup_insert_eq.
  split; [exact Hs |]. split.
  - rewrite (State_then_Make adminable "admin" (setRole "admin") [setRole "super"]
               (advanced 2) 2 Hs eq_refl (Runs.max_signed_bound 2 ltac:(lia))).
    reflexivity.
  - rewrite (State_then_Make adminable "admin" (setRole "admin") []
               (advanced 2) 2 Hs eq_refl (Runs.max_signed_bound 2 ltac:(lia))).
    reflexivity.
Defined.

(** X4 on the doubles: admin, then verified. *)
Lemma State_chain_witness :
  returns (let* c := State twoStates "admin" in State c "verified") (advanced 2)
    (fun c w' => traits c = [setRole "admin"; setPassword "verified"] /\
                 w' = mkWorld [2%Z; 0%Z; 2%Z; 2%Z] no_calls).
Proof.
  assert (Ha : states twoStates !! "admin" = Some (setRole "admin")).
  { unfold twoStates, DefineState. cbn [states].
    rewrite lookup_insert_ne by discriminate. apply lookup_insert_eq. }
  assert (Hb : states twoStates !! "verified" = Some (setPassword "verified"))
    by apply lookup_insert_eq.
  eapply returns_weaken;
    [exact (State_chain twoStates "admin" "verified" _ _ (advanced 2) 2 Ha Hb eq_refl) |].
  intros c w' (Ht & _ & _ & Hw). split; [exact Ht | exact Hw].
Defined.

(** X5 on the doubles: the role of the last definition of admin is the one
    applied, and an undefined name still panics. *)
Lemma DefineState_then_State_witness :
  returns (State (DefineState (DefineState userFactory "admin" (setRole "user"))
                    "admin" (setRole "admin")) "admin") fresh
    (fun c _ => traits c = [setRole "admin"]) /\
  State (DefineState userFactory "admin" (setRole "admin")) "owner" fresh =
  (Panic "factory: unknown state 'owner'", fresh).
Proof.
  destruct (DefineState_then_State userFactory "admin" "owner"
              (setRole "user") (setRole "admin") fresh 0 eq_refl ltac:(discriminate))
    as (H1 & _ & H3).
  split; [exact H1 | apply H3; reflexivity].
Defined.

(** X7 on the doubles: the observer records the item built on 1, and the
    item is returned with the per-call role. *)
Lemma Tap_observes_finished_item_witness :
  tapFn userFactory = None /\
  Make (Tap userFactory recordUser) [setRole "editor"] fresh =
  (Done (mkUser 0 1 "editor" ""), mkWorld [1%Z; 0%Z] (mkCalls 0 0 0 [1%Z])).
Proof.
  split; [reflexivity |].
  rewrite (Tap_observes_finished_item userFactory recordUser [setRole "editor"]
             fresh eq_refl).
  reflexivity.
Defined.

(** X8 on the doubles: the post is linked to the one existing user. *)
Lemma ForModel_then_Make_witness :
  cells fresh !! seq postFactory = Some 0%Z /\
  (let* c := ForModel postFactory (mkUser 7 9 "user" "") linkAuthor in Make c []) fresh =
  (Done (mkPost 0 1 9), mkWorld [0%Z; 0%Z; 1%Z] no_calls).
Proof.
  split; [reflexivity |].
  destruct (ForModel_then_Make postFactory (mkUser 7 9 "user" "") linkAuthor []
              fresh 0 eq_refl (Runs.max_signed_bound 0 ltac:(lia))) as [H _].
  rewrite H. reflexivity.
Defined.

(** X9 on the doubles: the first call overrides the role, the second call
    gets the second pattern element. *)
Lemma Make_twice_witness :
  cells fresh !! seq alternating = Some 0%Z /\
  (let* a := Make alternating [setRole "boss"] in
   let* b := Make alternating [] in ret (a, b)) fresh =
  (Done (mkUser 0 1 "boss" "", mkUser 0 2 "user" ""),
   mkWorld [2%Z; 0%Z] no_calls).
Proof.
  split; [reflexivity |].
  rewrite (Make_twice alternating [setRole "boss"] [] fresh 0 eq_refl
             ltac:(lia) ltac:(unfold Int64.max_signed; lia)).
  - reflexivity.
  - apply Runs.userFactory_frames; try reflexivity; repeat constructor;
      intros u; apply Runs.pure_frames.
Defined.

(** X10 on the doubles: a counter at -3 and a pattern of two. *)
Lemma Make_panics_on_negative_pattern_index_witness :
  cells (advanced (-3)) !! seq alternating = Some (-3)%Z /\
  sequences alternating <> [] /\
  Make alternating [] (advanced (-3)) =
  (Panic "runtime error: index out of range [-1]", mkWorld [(-2)%Z; 0%Z] no_calls).
Proof.
  split; [reflexivity |]. split; [discriminate |].
  refine (Make_panics_on_negative_pattern_index alternating [] (advanced (-3))
            _ _ _ (-3) _ _ _ eq_refl _ _ _ _ _ _).
  - unfold Int64.min_signed. lia.
  - discriminate.
  - discriminate.
  - reflexivity.
  - reflexivity.
  - reflexivity.
Defined.

(** X11 on the doubles: the persist double is called once and fails; the
    after-hook is not counted. *)
Lemma persist_error_skips_after_hooks_witness :
  persist rejectedPosts = Some (savePostFailingAt 1) /\
  Create rejectedPosts [] fresh =
  (Done (Error "disk full"), mkWorld [0%Z; 1%Z] (mkCalls 0 1 0 [])).
Proof.
  split; [reflexivity |].
  refine (proj1 (persist_error_skips_after_hooks rejectedPosts []
                   (savePostFailingAt 1) fresh _ _ _ _ _ _ _ eq_refl _ _ _));
    reflexivity.
Defined.

(** X12 on the doubles: the user is saved, the first after-hook is counted,
    the second rejects, the third is not counted, and no user is returned. *)
Lemma after_hook_error_after_persist_witness :
  after lateReject = [countingHook] ++ rejectingHook :: [countingHook] /\
  Create lateReject [] fresh =
  (Done (Error "validation failed"), mkWorld [1%Z; 0%Z] (mkCalls 1 0 1 [])).
Proof.
  split; [reflexivity |].
  refine (after_hook_error_after_persist lateReject [] saveUser
            [countingHook] [countingHook] rejectingHook
            fresh _ _ _ _ _ _ _ _ _ _ _ eq_refl eq_refl _ _ _ _ _); reflexivity.
Defined.


(** X14 on the doubles: three posts, all persisted. *)
Lemma CreateMany_all_succeed_witness :
  persist savedPosts = Some savePost /\
  CreateMany savedPosts 3 [] fresh =
  (Done ([mkPost 200 1 0; mkPost 201 2 0; mkPost 202 3 0], None),
   mkWorld [0%Z; 3%Z] (mkCalls 0 3 0 [])) /\
  CreateMany savedPosts (-1) [] fresh = (Panic makeslice_cap_panic, fresh).
Proof.
  split; [reflexivity |].
  assert (Hs : succeeds (Create savedPosts []) fresh
                 [mkPost 200 1 0; mkPost 201 2 0; mkPost 202 3 0]
                 (mkWorld [0%Z; 3%Z] (mkCalls 0 3 0 []))).
  { eapply succeeds_cons; [reflexivity |].
    eapply succeeds_cons; [reflexivity |].
    eapply succeeds_cons; [reflexivity |]. apply succeeds_nil. }
  destruct (CreateMany_all_succeed savedPosts [] savePost _ fresh _ eq_refl Hs)
    as (H1 & _ & H3).
  split; [exact H1 | apply H3; lia].
Defined.



(** X17 on the doubles: one user and three posts, each carrying the user's
    number; the post counter at 3. *)
Lemma HasFactory_Make_children_witness :
  returns (HasFactory_Make userWithThreePostsInMemory) fresh (fun r w' =>
    r.1 = mkUser 0 1 "user" "" /\
    Z.of_nat (length r.2) = 3%Z /\
    Forall (fun c => author_no c = 1%Z) r.2 /\
    cells w' !! 1 = Some (0 + 3)%Z).
Proof.
  refine (HasFactory_Make_children userWithThreePostsInMemory authoredBy
            author_no 1%Z fresh (mkWorld [1%Z; 0%Z] no_calls) (mkUser 0 1 "user" "") 0
            eq_refl eq_refl eq_refl _ _ _ _ _ _ _).
  - simpl. lia.
  - lia.
  - simpl. unfold Int64.max_signed. lia.
  - apply postFactory_runs; reflexivity.
  - apply (postFactory_frames 1); reflexivity.
  - apply (authoredBy_sets (mkUser 0 1 "user" "")).
  - intros c. apply Runs.pure_frames.
Defined.

Lemma failingPosts_leaves : leaves 1 failingPosts.
Proof.
  repeat split.
  - intros s. apply Runs.pure_frames.
  - constructor.
  - intros p. apply Runs.pure_frames.
  - constructor.
  - intros p t Hp. inversion Hp. apply savePostFailingAt_frames.
Qed.

(** X18 on the doubles: after two persisted children the post counter
    still holds 0, and both children were built on 1. *)
Lemma Has_Create_children_share_sequence_number_witness :
  succeeds (HasFactory_createChild userWithPosts (mkUser 101 1 "user" ""))
    (mkWorld [1%Z; 0%Z] (mkCalls 1 0 0 []))
    [mkPost 200 1 1; mkPost 201 1 1]
    (mkWorld [1%Z; 0%Z; 1%Z; 1%Z] (mkCalls 1 2 0 [])) /\
  cells (mkWorld [1%Z; 0%Z; 1%Z; 1%Z] (mkCalls 1 2 0 [])) !! seq failingPosts
  = Some 0%Z.
Proof.
  assert (Hs : succeeds (HasFactory_createChild userWithPosts (mkUser 101 1 "user" ""))
                 (mkWorld [1%Z; 0%Z] (mkCalls 1 0 0 []))
                 [mkPost 200 1 1; mkPost 201 1 1]
                 (mkWorld [1%Z; 0%Z; 1%Z; 1%Z] (mkCalls 1 2 0 []))).
  { eapply succeeds_cons; [reflexivity |].
    eapply succeeds_cons; [reflexivity |]. apply succeeds_nil. }
  split; [exact Hs |].
  refine (proj1 (Has_Create_children_share_sequence_number userWithPosts authoredBy
                   (savePostFailingAt 3) (mkUser 101 1 "user" "")
                   (mkWorld [1%Z; 0%Z] (mkCalls 1 0 0 [])) 0
                   eq_refl eq_refl eq_refl (Runs.max_signed_bound 0 ltac:(lia))
                   failingPosts_leaves _ _ _ Hs)).
  intros c. apply Runs.pure_frames.
Defined.

(** X19 on the doubles: a user and two posts, all persisted; with a count
    of -1 the user is persisted before the panic. *)
Lemma HasFactory_Create_outcomes_witness :
  HasFactory_Create userWithTwoPosts fresh =
  (Done (Some (mkUser 101 1 "user" ""),
         [mkPost 200 1 1; mkPost 201 1 1], None),
   mkWorld [1%Z; 0%Z; 1%Z; 1%Z] (mkCalls 1 2 0 [])) /\
  HasFactory_Create (Has savedUsers savedPosts (-1) (Some authoredBy)) fresh =
  (Panic makeslice_cap_panic, mkWorld [1%Z; 0%Z] (mkCalls 1 0 0 [])).
Proof.
  split.
  - destruct (HasFactory_Create_outcomes userWithTwoPosts fresh) as (_ & _ & H).
    apply (H (mkUser 101 1 "user" "") (mkWorld [1%Z; 0%Z] (mkCalls 1 0 0 []))).
    + reflexivity.
    + eapply succeeds_cons; [reflexivity |].
      eapply succeeds_cons; [reflexivity |]. apply succeeds_nil.
    + reflexivity.
  - destruct (HasFactory_Create_outcomes
                (Has savedUsers savedPosts (-1) (Some authoredBy)) fresh)
      as (_ & H & _).
    apply (H (mkUser 101 1 "user" "")); [reflexivity | simpl; lia].
Defined.

(** X20 on the doubles: with a pivot double that rejects, the run returns
    the persisted user, one post and no pivot. *)
Lemma HasAttached_lists_in_step_witness :
  HasAttachedFactory_Create userWithRejectedPivot fresh3 =
  (Done (Some (mkUser 101 1 "user" ""), [mkPost 200 1 0], [],
         Some "pivot rejected"),
   mkWorld [1%Z; 1%Z; 1%Z] (mkCalls 1 1 0 [])) /\
  (length [mkPost 200 1 0] = length (@nil Pivot) \/
   length [mkPost 200 1 0] = S (length (@nil Pivot))) /\
  (Z.of_nat (length (@nil Pivot)) < haf_count userWithRejectedPivot)%Z.
Proof.
  split; [reflexivity |].
  destruct (HasAttached_lists_in_step userWithRejectedPivot fresh3) as [_ H].
  destruct (H (mkUser 101 1 "user" "") [mkPost 200 1 0] []
              (Some "pivot rejected") _ eq_refl) as [_ Herr].
  apply Herr. discriminate.
Defined.

(** X22 on the doubles: the clone of an advanced definition builds on 1
    and accepts the state defined on the source; so does the clone of a
    definition without named states, in raw mode with its raw-only
    default. *)
Lemma Clone_is_configured_like_source_witness :
  states adminable !! "admin" = Some (setRole "admin") /\
  (let* c := Clone adminable in Make c []) (advanced 5) =
  (Done (mkUser 0 1 "user" ""), mkWorld [5%Z; 0%Z; 1%Z] no_calls) /\
  returns (let* c := Clone adminable in State c "admin") (advanced 5)
    (fun c' _ => traits c' = [setRole "admin"]) /\
  states withSecret = ∅ /\
  (let* c := Clone withSecret in Raw c []) (advanced 5) =
  (Done (mkUser 0 1 "user" "secret"), mkWorld [5%Z; 0%Z; 1%Z] no_calls).
Proof.
  assert (Hs : states adminable !! "admin" = Some (setRole "admin"))
    by apply lookup_insert_eq.
  split; [exact Hs |].
  destruct (Clone_is_configured_like_source adminable [] (advanced 5))
    as (H1 & _ & _ & H4).
  split; [rewrite H1; reflexivity |]. split.
  - eapply returns_weaken; [exact (H4 "admin" (setRole "admin") Hs) |].
    intros c' w' (Ht & _). exact Ht.
  - split; [reflexivity |].
    destruct (Clone_is_configured_like_source withSecret [] (advanced 5))
      as (_ & H2 & _).
    rewrite H2. reflexivity.
Defined.

(** X21 on the doubles: three admins through the fluent count. *)
Lemma Count_State_Make_witness :
  (let* cf := CountedFactory_State (Count adminable 3) "admin" in
   CountedFactory_Make cf []) fresh =
  (Done [mkUser 0 1 "admin" ""; mkUser 0 2 "admin" ""; mkUser 0 3 "admin" ""],
   mkWorld [0%Z; 0%Z; 3%Z] no_calls).
Proof.
  destruct (Count_State_Make adminable 3 "admin" [] fresh) as [H _].
  rewrite H. reflexivity.
Defined.

End MoreRuns.
